(** * raiden/connection_manager.py: the ConnectionManager, embedded and verified

    The Python class [ConnectionManager] decides how many payment channels a
    node keeps open in one token network and how much it deposits in each.
    This file embeds the class as functions over an explicit machine state:

    - Python numbers are integers ([Z]) or IEEE-754 doubles ([spec_float] at
      precision 53), with Python's rules for mixing them;
    - the node, the chain state, the [RaidenAPI] and [waiting] are the
      collaborators of the class: they are not part of the module and enter
      through the type class [Raiden];
    - every method is a computation in the monad [M], which threads the
      manager's fields, the node, the log of calls made to the collaborators
      and the random tape used by [random.shuffle], and which may raise.

    Methods are run one at a time, so the semaphore [self.lock] is never
    contended and is left out; the greenlets one call spawns are run in the
    order they were spawned.

    The last part states and proves the properties of the methods. *)

From Stdlib Require Import ZArith Lia Bool QArith Qround Ascii String.
From Stdlib Require Import Floats.SpecFloat.
From stdpp Require Import gmap strings list.

Local Open Scope Z_scope.

(** ** Exceptions and results *)

Inductive invalid_amount_reason :=
  | InsufficientBalance
  | NonPositiveFunds.

Inductive pyexn :=
  | InvalidAmount (why : invalid_amount_reason)
  | DuplicatedChannelError
  | TransactionThrew
  | ChannelIncorrectStateError
  | InsufficientFunds
  | OverflowError
  | ValueError
  | ZeroDivisionError
  | TypeError.

Inductive outcome (A : Type) :=
  | Return (a : A)
  | Raise (e : pyexn).
Arguments Return {A} a.
Arguments Raise {A} e.

Definition is_invalid_amount (e : pyexn) : bool :=
  match e with InvalidAmount _ => true | _ => false end.

(** The exceptions Python's arithmetic raises. *)
Definition arithmetic_error (e : pyexn) : bool :=
  match e with
  | OverflowError | ValueError | ZeroDivisionError => true
  | _ => false
  end.

(** ** Python numbers

    [int] is unbounded; [float] is binary64. *)

Definition prec : Z := 53.
Definition emax : Z := 1024.

Inductive pynum :=
  | PyInt (z : Z)
  | PyFloat (f : spec_float).

(** An integer as a (not normalised) float with exponent 0: the exact
    operand of a correctly rounded operation. *)
Definition Z2SF_exact (z : Z) : spec_float :=
  match z with
  | Z0 => S754_zero false
  | Zpos p => S754_finite false p 0
  | Zneg p => S754_finite true p 0
  end.

Definition finite_or_overflow (f : spec_float) : outcome spec_float :=
  match f with
  | S754_infinity _ => Raise OverflowError
  | _ => Return f
  end.

(** [float(z)]: round to nearest, ties to even; "int too large to convert
    to float" when the result does not fit. *)
Definition float_of_int (z : Z) : outcome spec_float :=
  finite_or_overflow (binary_normalize prec emax z 0 false).

(** [a / b] on two ints: the correctly rounded quotient. *)
Definition int_true_divide (a b : Z) : outcome spec_float :=
  if b =? 0 then Raise ZeroDivisionError
  else finite_or_overflow (SFdiv prec emax (Z2SF_exact a) (Z2SF_exact b)).

(** The double a decimal literal [num/den] denotes, e.g. [0.4] is
    [float_literal 4 10]. *)
Definition float_literal (num den : Z) : spec_float :=
  SFdiv prec emax (Z2SF_exact num) (Z2SF_exact den).

Definition is_float_zero (f : spec_float) : bool :=
  match f with S754_zero _ => true | _ => false end.

Definition float_truediv (f g : spec_float) : outcome spec_float :=
  if is_float_zero g then Raise ZeroDivisionError
  else Return (SFdiv prec emax f g).

(** Binary operators: an int operand is converted when the other one is a
    float. *)
Definition py_arith (on_int : Z -> Z -> outcome pynum)
    (on_float : spec_float -> spec_float -> outcome spec_float)
    (x y : pynum) : outcome pynum :=
  match x, y with
  | PyInt a, PyInt b => on_int a b
  | PyInt a, PyFloat g =>
      match float_of_int a with
      | Return f =>
          match on_float f g with
          | Return r => Return (PyFloat r)
          | Raise e => Raise e
          end
      | Raise e => Raise e
      end
  | PyFloat f, PyInt b =>
      match float_of_int b with
      | Return g =>
          match on_float f g with
          | Return r => Return (PyFloat r)
          | Raise e => Raise e
          end
      | Raise e => Raise e
      end
  | PyFloat f, PyFloat g =>
      match on_float f g with
      | Return r => Return (PyFloat r)
      | Raise e => Raise e
      end
  end.

Definition py_sub : pynum -> pynum -> outcome pynum :=
  py_arith (fun a b => Return (PyInt (a - b)))
           (fun f g => Return (SFsub prec emax f g)).

Definition py_mul : pynum -> pynum -> outcome pynum :=
  py_arith (fun a b => Return (PyInt (a * b)))
           (fun f g => Return (SFmul prec emax f g)).

Definition py_truediv : pynum -> pynum -> outcome pynum :=
  py_arith (fun a b =>
              match int_true_divide a b with
              | Return f => Return (PyFloat f)
              | Raise e => Raise e
              end)
           float_truediv.

(** [int(f)] on a float: truncation toward zero. *)
Definition float_trunc (f : spec_float) : outcome Z :=
  match f with
  | S754_zero _ => Return 0
  | S754_infinity _ => Raise OverflowError
  | S754_nan => Raise ValueError
  | S754_finite s m e =>
      Return (cond_Zopp s
                (match e with
                 | Zneg p => Z.shiftr (Zpos m) (Zpos p)
                 | _ => Z.shiftl (Zpos m) e
                 end))
  end.

Definition py_int (x : pynum) : outcome Z :=
  match x with
  | PyInt z => Return z
  | PyFloat f => float_trunc f
  end.

(** ** Python values compared with [==] *)

#[warnings="-register-all"] Inductive pyval :=
  | VInt (z : Z)
  | VBytes (b : string)
  | VList (l : list pyval).

Fixpoint py_eq (x y : pyval) : bool :=
  match x, y with
  | VInt a, VInt b => a =? b
  | VBytes a, VBytes b => bool_decide (a = b)
  | VList l, VList k =>
      (fix list_eq (l k : list pyval) : bool :=
         match l, k with
         | [], [] => true
         | a :: l', b :: k' => py_eq a b && list_eq l' k'
         | _, _ => false
         end) l k
  | _, _ => false
  end.

(** [lst[:n]] *)
Definition py_slice_upto {A} (l : list A) (n : Z) : list A :=
  if n <? 0 then take (length l - Z.to_nat (- n))%nat l
  else take (Z.to_nat n) l.

(** ** Addresses and channel states *)

(** An address is a Python [bytes] value. *)
Definition Address : Type := string.
Definition ChannelID : Type := Z.

Definition hex_digit_value (c : ascii) : option N :=
  let n := N_of_ascii c in
  if (48 <=? n)%N && (n <=? 57)%N then Some (n - 48)%N
  else if (97 <=? n)%N && (n <=? 102)%N then Some (n - 87)%N
  else if (65 <=? n)%N && (n <=? 70)%N then Some (n - 55)%N
  else None.

(** [binascii.unhexlify]: [None] stands for [binascii.Error]. *)
Fixpoint unhexlify (s : string) : option string :=
  match s with
  | EmptyString => Some EmptyString
  | String hi (String lo rest) =>
      match hex_digit_value hi, hex_digit_value lo, unhexlify rest with
      | Some h, Some l, Some r => Some (String (ascii_of_N (16 * h + l)) r)
      | _, _, _ => None
      end
  | String _ EmptyString => None
  end.

Fixpoint bytes_repeat (s : string) (n : nat) : string :=
  match n with
  | O => EmptyString
  | S n' => String.append s (bytes_repeat s n')
  end.

Definition BOOTSTRAP_ADDR_HEX : string := bytes_repeat "2" 40.

Definition BOOTSTRAP_ADDR : Address :=
  Eval vm_compute in
    match unhexlify BOOTSTRAP_ADDR_HEX with
    | Some b => b
    | None => EmptyString
    end.

Record NettingChannelEndState := {
  address : Address;
  contract_balance : Z;
}.

Record NettingChannelState := {
  identifier : ChannelID;
  our_state : NettingChannelEndState;
  partner_state : NettingChannelEndState;
}.

#[global] Instance NettingChannelEndState_eq_dec :
  EqDecision NettingChannelEndState.
Proof. solve_decision. Defined.

#[global] Instance NettingChannelState_eq_dec : EqDecision NettingChannelState.
Proof. solve_decision. Defined.

Definition partner_address (channel_state : NettingChannelState) : Address :=
  address (partner_state channel_state).

(** ** The collaborators

    What the class reads from the node and the chain state ([views],
    [token.balance_of], [raiden.alarm]) and what it asks the [RaidenAPI] and
    [waiting] to do.  [W] is the state of the node together with its view of
    the chain.  A write returns the state it leaves; the failures are those
    the class handles. *)

Inductive open_result := OpenOk | OpenDuplicated.

Inductive deposit_result :=
  | DepositOk
  | DepositTransactionThrew
  | DepositChannelIncorrectState
  | DepositInsufficientFunds.

Class Raiden (W : Type) := {
  raiden_address : W -> Address;
  alarm_sleep_time : W -> pynum;
  balance_of : W -> Address -> Address -> Z;
  get_token_network_registry_address : W -> Address -> Address;
  get_token_network_token_address : W -> Address -> Address;
  get_channelstate_open : W -> Address -> Address -> list NettingChannelState;
  get_our_capacity_for_token_network : W -> Address -> Address -> Z;
  count_token_network_channels : W -> Address -> Address -> Z;
  get_participants_addresses : W -> Address -> Address -> gset Address;
  channel_open : W -> Address -> Address -> Address -> W * open_result;
  set_total_channel_deposit :
    W -> Address -> Address -> Address -> Z -> W * deposit_result;
  channel_batch_close : W -> Address -> Address -> list Address -> W;
  wait_for_settle :
    W -> Address -> Address -> list ChannelID -> pynum -> W;
}.

(** The calls made to the collaborators, and the greenlets spawned, in
    order. *)
Inductive event :=
  | ChannelOpen (registry_address token_address partner : Address)
  | SetTotalChannelDeposit
      (registry_address token_address partner : Address) (total_deposit : Z)
  | ChannelBatchClose
      (registry_address token_address : Address) (partners : list Address)
  | WaitForSettle
      (registry_address token_address : Address)
      (channel_ids : list ChannelID) (retry_timeout : pynum)
  | SpawnJoinPartner (partner : Address).

(** ** The manager's fields *)

Record ConnectionManager := {
  funds : Z;
  initial_channel_target : Z;
  joinable_funds_target : pynum;
  registry_address : Address;
  token_network_identifier : Address;
  token_address : Address;
}.

(** [self.initial_channel_target = target] *)
Definition set_initial_channel_target (target : Z) (self : ConnectionManager)
    : ConnectionManager :=
  {| funds := funds self;
     initial_channel_target := target;
     joinable_funds_target := joinable_funds_target self;
     registry_address := registry_address self;
     token_network_identifier := token_network_identifier self;
     token_address := token_address self |}.

(** [self.funds], [self.initial_channel_target] and
    [self.joinable_funds_target] assigned in turn. *)
Definition set_strategy (funds target : Z) (joinable : pynum)
    (self : ConnectionManager) : ConnectionManager :=
  {| funds := funds;
     initial_channel_target := target;
     joinable_funds_target := joinable;
     registry_address := registry_address self;
     token_network_identifier := token_network_identifier self;
     token_address := token_address self |}.

(** [_initial_funding_per_partner] *)
Definition _initial_funding_per_partner (self : ConnectionManager)
    : outcome Z :=
  if negb (initial_channel_target self =? 0) then
    match py_sub (PyInt 1) (joinable_funds_target self) with
    | Raise e => Raise e
    | Return rest =>
        match py_mul (PyInt (funds self)) rest with
        | Raise e => Raise e
        | Return assigned =>
            match py_truediv assigned (PyInt (initial_channel_target self)) with
            | Raise e => Raise e
            | Return per_partner => py_int per_partner
            end
        end
    end
  else Return 0.

(** [_leaving_state] *)
Definition _leaving_state (self : ConnectionManager) : bool :=
  initial_channel_target self <? 1.

(** The spec's formula for the same amount, in exact rational arithmetic. *)
Definition spec_initial_funding_per_partner
    (funds initial_channel_target : Z) (joinable_funds_target : Q) : Z :=
  if 0 <? initial_channel_target then
    Qfloor (inject_Z funds * (1 - joinable_funds_target)
            / inject_Z initial_channel_target)%Q
  else 0.

(** ** The machine and its monad *)

Section Model.
Context {W : Type} `{!Raiden W}.

(** [mgr] holds the fields of [self], [raiden] the node and the chain as it
    sees it, [calls] what has been asked of the collaborators so far, and
    [tape] the numbers [random] will draw next. *)
Record Machine := {
  mgr : ConnectionManager;
  raiden : W;
  calls : list event;
  tape : list nat;
}.

Definition M (A : Type) : Type := Machine -> outcome A * Machine.

#[global] Instance M_ret : MRet M := fun A a s => (Return a, s).

#[global] Instance M_bind : MBind M := fun A B f m s =>
  match m s with
  | (Return a, s') => f a s'
  | (Raise e, s') => (Raise e, s')
  end.

Definition gets {A} (f : Machine -> A) : M A := fun s => (Return (f s), s).

Definition raise {A} (e : pyexn) : M A := fun s => (Raise e, s).

Definition lift_outcome {A} (o : outcome A) : M A := fun s => (o, s).

Definition set_mgr (self : ConnectionManager) : M unit := fun s =>
  (Return tt,
   {| mgr := self; raiden := raiden s; calls := calls s; tape := tape s |}).

Definition perform (ev : event) (w : W) (s : Machine) : Machine :=
  {| mgr := mgr s; raiden := w; calls := calls s ++ [ev]; tape := tape s |}.

(** [try: body except handled: pass] *)
Definition try_except_pass (body : M unit) (handled : pyexn -> bool)
    : M unit := fun s =>
  match body s with
  | (Raise e, s') => if handled e then (Return tt, s') else (Raise e, s')
  | r => r
  end.

(** A greenlet keeps the exception its body raises; the spawning code
    never sees it.  Greenlets are run one after the other, in the order
    they were spawned. *)
Definition greenlet_run {A} (body : M A) : M (outcome A) := fun s =>
  let '(r, s') := body s in (Return r, s').

Fixpoint gevent_joinall (greenlets : list (M unit)) : M unit :=
  match greenlets with
  | [] => mret tt
  | g :: rest => _ ← greenlet_run g; gevent_joinall rest
  end.

(** *** random.shuffle *)

Definition randbelow (n : nat) : M nat := fun s =>
  match tape s with
  | [] => (Return 0%nat, s)
  | r :: rest =>
      (Return (r mod n)%nat,
       {| mgr := mgr s; raiden := raiden s; calls := calls s;
          tape := rest |})
  end.

(** [x[i], x[j] = x[j], x[i]] *)
Definition list_swap {A} (x : list A) (i j : nat) : list A :=
  match x !! j, x !! i with
  | Some xj, Some xi => <[j := xi]> (<[i := xj]> x)
  | _, _ => x
  end.

(** [for i in reversed(range(1, len(x)))] *)
Fixpoint shuffle_from {A} (i : nat) (x : list A) : M (list A) :=
  match i with
  | O => mret x
  | S i' =>
      j ← randbelow (S i);
      shuffle_from i' (list_swap x i j)
  end.

Definition shuffle {A} (x : list A) : M (list A) :=
  shuffle_from (length x - 1)%nat x.

(** *** The RaidenAPI and waiting *)

Definition api_channel_open (registry token partner : Address) : M unit :=
  fun s =>
    let '(w, r) := channel_open (raiden s) registry token partner in
    (match r with
     | OpenOk => Return tt
     | OpenDuplicated => Raise DuplicatedChannelError
     end,
     perform (ChannelOpen registry token partner) w s).

Definition api_set_total_channel_deposit
    (registry token partner : Address) (total_deposit : Z) : M unit :=
  fun s =>
    let '(w, r) :=
      set_total_channel_deposit (raiden s) registry token partner
        total_deposit in
    (match r with
     | DepositOk => Return tt
     | DepositTransactionThrew => Raise TransactionThrew
     | DepositChannelIncorrectState => Raise ChannelIncorrectStateError
     | DepositInsufficientFunds => Raise InsufficientFunds
     end,
     perform (SetTotalChannelDeposit registry token partner total_deposit)
       w s).

Definition api_channel_batch_close
    (registry token : Address) (partners : list Address) : M unit :=
  fun s =>
    (Return tt,
     perform (ChannelBatchClose registry token partners)
       (channel_batch_close (raiden s) registry token partners) s).

Definition waiting_wait_for_settle
    (registry token : Address) (channel_ids : list ChannelID)
    (retry_timeout : pynum) : M unit :=
  fun s =>
    (Return tt,
     perform (WaitForSettle registry token channel_ids retry_timeout)
       (wait_for_settle (raiden s) registry token channel_ids
          retry_timeout) s).

(** ** The class *)

(** [log_open_channels]: reads the views for a debug message; the message
    itself is not modelled. *)
Definition log_open_channels (registry token : Address) (funds : Z)
    : M unit :=
  open_channels ←
    gets (fun s => get_channelstate_open (raiden s) registry token);
  match open_channels with
  | [] => mret tt
  | _ =>
      sum_deposits ←
        gets (fun s =>
                get_our_capacity_for_token_network (raiden s) registry token);
      mret tt
  end.

(** [__init__] *)
Definition ConnectionManager_init (w : W) (token_network_identifier : Address)
    : ConnectionManager :=
  {| funds := 0;
     initial_channel_target := 0;
     joinable_funds_target := PyInt 0;
     registry_address :=
       get_token_network_registry_address w token_network_identifier;
     token_network_identifier := token_network_identifier;
     token_address :=
       get_token_network_token_address w token_network_identifier |}.

(** [_funds_remaining] *)
Definition _funds_remaining : M Z :=
  self ← gets mgr;
  if 0 <? funds self then
    token_balance ←
      gets (fun s =>
              balance_of (raiden s) (token_address self)
                (raiden_address (raiden s)));
    sum_deposits ←
      gets (fun s =>
              get_our_capacity_for_token_network (raiden s)
                (registry_address self) (token_address self));
    mret (Z.min (funds self - sum_deposits) token_balance)
  else mret 0.

(** [_find_new_partners] *)
Definition _find_new_partners : M (list Address) :=
  self ← gets mgr;
  open_channels ←
    gets (fun s =>
            get_channelstate_open (raiden s) (registry_address self)
              (token_address self));
  let known : gset Address := list_to_set (partner_address <$> open_channels) in
  let known := known ∪ {[ BOOTSTRAP_ADDR ]} in
  own ← gets (fun s => raiden_address (raiden s));
  let known := known ∪ {[ own ]} in
  participants_addresses ←
    gets (fun s =>
            get_participants_addresses (raiden s) (registry_address self)
              (token_address self));
  let available := participants_addresses ∖ known in
  let available := elements available in
  new_partners ← shuffle available;
  mret new_partners.

(** [_join_partner] *)
Definition _join_partner (partner : Address) : M unit :=
  self ← gets mgr;
  try_except_pass
    (api_channel_open (registry_address self) (token_address self) partner)
    (fun e => match e with DuplicatedChannelError => true | _ => false end);;
  try_except_pass
    (total_deposit ← lift_outcome (_initial_funding_per_partner self);
     api_set_total_channel_deposit (registry_address self)
       (token_address self) partner total_deposit)
    (fun e =>
       match e with
       | TransactionThrew | ChannelIncorrectStateError | InsufficientFunds =>
           true
       | _ => false
       end).

(** [[c for c in channels if c.our_state.contract_balance >=
     self._initial_funding_per_partner]]: the property is evaluated once
    per channel. *)
Fixpoint funded_among (self : ConnectionManager)
    (channels : list NettingChannelState)
    : outcome (list NettingChannelState) :=
  match channels with
  | [] => Return []
  | channel_state :: rest =>
      match _initial_funding_per_partner self with
      | Raise e => Raise e
      | Return funding =>
          match funded_among self rest with
          | Raise e => Raise e
          | Return funded =>
              Return (if funding <=? contract_balance (our_state channel_state)
                      then channel_state :: funded else funded)
          end
      end
  end.

Definition gevent_spawn_join_partner (partner : Address) : M (M unit) :=
  fun s =>
    (Return (_join_partner partner),
     perform (SpawnJoinPartner partner) (raiden s) s).

Fixpoint spawn_all (partners : list Address) : M (list (M unit)) :=
  match partners with
  | [] => mret []
  | partner :: rest =>
      g ← gevent_spawn_join_partner partner;
      gs ← spawn_all rest;
      mret (g :: gs)
  end.

(** [_open_channels] *)
Definition _open_channels : M bool :=
  self ← gets mgr;
  open_channels ←
    gets (fun s =>
            get_channelstate_open (raiden s) (registry_address self)
              (token_address self));
  let open_channels :=
    filter (fun channel_state =>
              partner_address channel_state ≠ BOOTSTRAP_ADDR)
           open_channels in
  funded_channels ← lift_outcome (funded_among self open_channels);
  let nonfunded_channels :=
    filter (fun channel_state => channel_state ∉ funded_channels)
           open_channels in
  possible_new_partners ← _find_new_partners;
  if py_eq (VList (VBytes <$> possible_new_partners)) (VInt 0) then
    mret false
  else if initial_channel_target self <=? Z.of_nat (length funded_channels)
  then mret false
  else if bool_decide (nonfunded_channels = [])
          && bool_decide (possible_new_partners = [])
  then mret false
  else
    let n_to_join :=
      initial_channel_target self - Z.of_nat (length funded_channels) in
    let nonfunded_partners := partner_address <$> nonfunded_channels in
    let join_partners :=
      py_slice_upto (nonfunded_partners ++ possible_new_partners) n_to_join in
    greenlets ← spawn_all join_partners;
    gevent_joinall greenlets;;
    mret true.

(** [connect] *)
Definition connect (funds : Z) (initial_channel_target : Z)
    (joinable_funds_target : pynum) : M unit :=
  self ← gets mgr;
  token_balance ←
    gets (fun s =>
            balance_of (raiden s) (token_address self)
              (raiden_address (raiden s)));
  if token_balance <? funds then raise (InvalidAmount InsufficientBalance)
  else if funds <=? 0 then raise (InvalidAmount NonPositiveFunds)
  else
    set_mgr (set_strategy funds initial_channel_target
               joinable_funds_target self);;
    log_open_channels (registry_address self) (token_address self) funds;;
    qty_network_channels ←
      gets (fun s =>
              count_token_network_channels (raiden s)
                (registry_address self) (token_address self));
    if qty_network_channels =? 0 then
      api_channel_open (registry_address self) (token_address self)
        BOOTSTRAP_ADDR
    else
      _ ← _open_channels; mret tt.

(** [leave] *)
Definition leave (registry_address : Address)
    : M (list NettingChannelState) :=
  self ← gets mgr;
  set_mgr (set_initial_channel_target 0 self);;
  channels_to_close ←
    gets (fun s =>
            get_channelstate_open (raiden s) registry_address
              (token_address self));
  let partner_addresses := partner_address <$> channels_to_close in
  api_channel_batch_close registry_address (token_address self)
    partner_addresses;;
  let channel_ids := identifier <$> channels_to_close in
  sleep_time ← gets (fun s => alarm_sleep_time (raiden s));
  waiting_wait_for_settle registry_address (token_address self) channel_ids
    sleep_time;;
  mret channels_to_close.

(** Calling the bound method [self.leave] with the positional arguments
    [args]: [leave] has one parameter besides [self]. *)
Definition call_leave (args : list Address) : M (list NettingChannelState) :=
  match args with
  | [registry_address] => leave registry_address
  | _ => raise TypeError
  end.

(** [leave_async]: [gevent.spawn(self.leave)] passes no argument; the value
    is what the linked [AsyncResult] is set to. *)
Definition leave_async : M (outcome (list NettingChannelState)) :=
  greenlet_run (call_leave []).

(** [join_channel] *)
Definition join_channel (partner_address : Address) (partner_deposit : Z)
    : M unit :=
  self ← gets mgr;
  funds_remaining ← _funds_remaining;
  initial_funding ← lift_outcome (_initial_funding_per_partner self);
  let joining_funds :=
    Z.min (Z.min partner_deposit funds_remaining) initial_funding in
  if (joining_funds <=? 0) || _leaving_state self then mret tt
  else
    try_except_pass
      (api_set_total_channel_deposit (registry_address self)
         (token_address self) partner_address joining_funds)
      (fun e =>
         match e with ChannelIncorrectStateError => true | _ => false end).

(** [retry_connect]: the [while] loop runs for as long as [fuel] allows;
    [None] means it was still running when the fuel ran out. *)
Fixpoint retry_connect (fuel : nat) : M (option unit) :=
  funds_remaining ← _funds_remaining;
  self ← gets mgr;
  if (0 <? funds_remaining) && negb (_leaving_state self) then
    match fuel with
    | O => mret None
    | S fuel' =>
        opened ← _open_channels;
        if negb opened then mret (Some tt) else retry_connect fuel'
    end
  else mret (Some tt).

End Model.

Arguments Machine W : clear implicits.
Arguments M W A : clear implicits.

(** ** A small node to run the class on

    One token network, seen from one node: the node's token balance, its
    open channels, the participants of the network and the number of
    channels in it. *)

Record ToyNode := {
  toy_address : Address;
  toy_balance : Z;
  toy_channels : list NettingChannelState;
  toy_participants : list Address;
  toy_network_channels : Z;
}.

Definition toy_has_channel (w : ToyNode) (partner : Address) : bool :=
  bool_decide (partner ∈ partner_address <$> toy_channels w).

Definition toy_open (w : ToyNode) (partner : Address) : ToyNode * open_result :=
  if toy_has_channel w partner then (w, OpenDuplicated)
  else
    ({| toy_address := toy_address w;
        toy_balance := toy_balance w;
        toy_channels :=
          toy_channels w ++
          [{| identifier := Z.of_nat (length (toy_channels w)) + 1;
              our_state := {| address := toy_address w; contract_balance := 0 |};
              partner_state := {| address := partner; contract_balance := 0 |}
           |}];
        toy_participants := toy_participants w;
        toy_network_channels := toy_network_channels w + 1 |},
     OpenOk).

Definition toy_set_deposit (total : Z) (partner : Address)
    (channel_state : NettingChannelState) : NettingChannelState :=
  if bool_decide (partner_address channel_state = partner) then
    {| identifier := identifier channel_state;
       our_state :=
         {| address := address (our_state channel_state);
            contract_balance := total |};
       partner_state := partner_state channel_state |}
  else channel_state.

Definition toy_deposit (w : ToyNode) (partner : Address) (total : Z)
    : ToyNode * deposit_result :=
  if negb (toy_has_channel w partner) then (w, DepositChannelIncorrectState)
  else if toy_balance w <? total then (w, DepositInsufficientFunds)
  else
    ({| toy_address := toy_address w;
        toy_balance := toy_balance w - total;
        toy_channels := toy_set_deposit total partner <$> toy_channels w;
        toy_participants := toy_participants w;
        toy_network_channels := toy_network_channels w |},
     DepositOk).

Definition toy_close (w : ToyNode) (partners : list Address) : ToyNode :=
  {| toy_address := toy_address w;
     toy_balance := toy_balance w;
     toy_channels :=
       filter (fun channel_state => partner_address channel_state ∉ partners)
              (toy_channels w);
     toy_participants := toy_participants w;
     toy_network_channels := toy_network_channels w |}.

#[global] Instance toy_raiden : Raiden ToyNode := {|
  raiden_address := toy_address;
  alarm_sleep_time := fun _ => PyInt 1;
  balance_of := fun w _ _ => toy_balance w;
  get_token_network_registry_address := fun _ _ => "registry";
  get_token_network_token_address := fun _ _ => "token";
  get_channelstate_open := fun w _ _ => toy_channels w;
  get_our_capacity_for_token_network := fun w _ _ =>
    foldr Z.add 0 (contract_balance ∘ our_state <$> toy_channels w);
  count_token_network_channels := fun w _ _ => toy_network_channels w;
  get_participants_addresses := fun w _ _ => list_to_set (toy_participants w);
  channel_open := fun w _ _ partner => toy_open w partner;
  set_total_channel_deposit := fun w _ _ partner total =>
    toy_deposit w partner total;
  channel_batch_close := fun w _ _ partners => toy_close w partners;
  wait_for_settle := fun w _ _ _ _ => w;
|}.

Definition toy_channel (id : ChannelID) (partner : Address) (deposit : Z)
    : NettingChannelState :=
  {| identifier := id;
     our_state := {| address := "me"; contract_balance := deposit |};
     partner_state := {| address := partner; contract_balance := 0 |} |}.

Definition toy_machine (funds target : Z) (joinable : pynum)
    (balance : Z) (channels : list NettingChannelState)
    (participants : list Address) (network_channels : Z) (tape : list nat)
    : Machine ToyNode :=
  {| mgr := {| funds := funds;
               initial_channel_target := target;
               joinable_funds_target := joinable;
               registry_address := "registry";
               token_network_identifier := "network";
               token_address := "token" |};
     raiden := {| toy_address := "me";
                  toy_balance := balance;
                  toy_channels := channels;
                  toy_participants := participants;
                  toy_network_channels := network_channels |};
     calls := [];
     tape := tape |}.

(** The literals [0.4] and [0.9]. *)
Definition float_0_4 : spec_float := Eval vm_compute in float_literal 4 10.
Definition float_0_9 : spec_float := Eval vm_compute in float_literal 9 10.

(** ** Vocabulary of the statements *)

Section Vocabulary.
Context {W : Type} `{!Raiden W}.

(** Two machines that differ at most in the random tape. *)
Definition same_but_tape (s s' : Machine W) : Prop :=
  mgr s' = mgr s ∧ raiden s' = raiden s ∧ calls s' = calls s.

(** The open channels of the manager's token network, the bootstrap
    channel left out. *)
Definition open_channels_of (s : Machine W) : list NettingChannelState :=
  filter (fun channel_state => partner_address channel_state ≠ BOOTSTRAP_ADDR)
    (get_channelstate_open (raiden s) (registry_address (mgr s))
       (token_address (mgr s))).

Definition funded_channels (funding : Z) (s : Machine W)
    : list NettingChannelState :=
  filter (fun channel_state =>
            funding ≤ contract_balance (our_state channel_state))
    (open_channels_of s).

Definition nonfunded_channels (funding : Z) (s : Machine W)
    : list NettingChannelState :=
  filter (fun channel_state =>
            contract_balance (our_state channel_state) < funding)
    (open_channels_of s).

(** The participants that are neither a partner of an open channel, nor
    the bootstrap address, nor the node itself. *)
Definition eligible_partners (s : Machine W) : gset Address :=
  get_participants_addresses (raiden s) (registry_address (mgr s))
    (token_address (mgr s))
  ∖ (list_to_set
       (partner_address <$>
          get_channelstate_open (raiden s) (registry_address (mgr s))
            (token_address (mgr s)))
     ∪ {[ BOOTSTRAP_ADDR ]} ∪ {[ raiden_address (raiden s) ]}).

(** [min(funds - sum_deposits, token_balance)], or 0 without funds. *)
Definition funds_remaining_of (s : Machine W) : Z :=
  if 0 <? funds (mgr s) then
    Z.min
      (funds (mgr s)
       - get_our_capacity_for_token_network (raiden s)
           (registry_address (mgr s)) (token_address (mgr s)))
      (balance_of (raiden s) (token_address (mgr s))
         (raiden_address (raiden s)))
  else 0.

(** What one completed [_join_partner] asks of the API. *)
Definition join_calls (self : ConnectionManager) (funding : Z)
    (partner : Address) : list event :=
  [ChannelOpen (registry_address self) (token_address self) partner;
   SetTotalChannelDeposit (registry_address self) (token_address self)
     partner funding].

End Vocabulary.

(** Machines the statements are run on. *)

(** One channel, to "a", already funded with the 60 tokens a target of one
    channel asks for. *)
Definition toy_target_met : Machine ToyNode :=
  toy_machine 100 1 (PyFloat float_0_4) 1000 [toy_channel 1 "a" 60]
    ["a"; "b"; "me"] 4 [3; 1]%nat.

(** One unfunded channel and five more participants, for a target of three
    channels. *)
Definition toy_joining : Machine ToyNode :=
  toy_machine 100 3 (PyFloat float_0_4) 1000 [toy_channel 1 "a" 0]
    ["a"; "b"; "c"; "d"; "e"; "f"; "me"] 4 [3; 1; 4; 1; 5]%nat.

(** One unfunded channel and nobody else to connect to. *)
Definition toy_small_network : Machine ToyNode :=
  toy_machine 100 3 (PyFloat float_0_4) 1000 [toy_channel 1 "a" 0]
    ["a"; "me"] 1 [].

(** A manager that was told to keep a negative number of channels. *)
Definition negative_target_manager : ConnectionManager :=
  {| funds := 100;
     initial_channel_target := -3;
     joinable_funds_target := PyFloat float_0_4;
     registry_address := "registry";
     token_network_identifier := "network";
     token_address := "token" |}.

(** A manager with one token and one wei, nothing held back, one channel. *)
Definition one_token_manager : ConnectionManager :=
  {| funds := 10 ^ 18 + 1;
     initial_channel_target := 1;
     joinable_funds_target := PyInt 0;
     registry_address := "registry";
     token_network_identifier := "network";
     token_address := "token" |}.

(** A network without any channel yet. *)
Definition toy_empty_network : Machine ToyNode :=
  toy_machine 0 0 (PyInt 0) 1000 [] ["me"] 0 [].

(** ** constants.py: the network tables *)

Definition MAINNET : string := "mainnet".
Definition ROPSTEN : string := "ropsten".
Definition RINKEBY : string := "rinkeby".
Definition KOVAN : string := "kovan".
Definition SMOKETEST : string := "smoketest".

(** A dict display [{k1: v1, k2: v2, ...}]: the items are inserted from
    left to right, a later item replacing an earlier one with its key. *)
Definition dict_display `{Countable K} {V} (items : list (K * V)) : gmap K V :=
  foldl (fun d item => <[item.1 := item.2]> d) ∅ items.

(** [{v: k for k, v in d.items()}], over the items of [d] in the order
    they were inserted. *)
Definition dict_inverted `{Countable V} {K} (items : list (K * V)) : gmap V K :=
  foldl (fun d item => <[item.2 := item.1]> d) ∅ items.

Definition ID_TO_NETWORKNAME_items : list (Z * string) :=
  [(1, MAINNET); (3, ROPSTEN); (4, RINKEBY); (42, KOVAN); (627, SMOKETEST)].

Definition ID_TO_NETWORKNAME : gmap Z string :=
  dict_display ID_TO_NETWORKNAME_items.

Definition NETWORKNAME_TO_ID : gmap string Z :=
  dict_inverted ID_TO_NETWORKNAME_items.

(** ** What a call is about *)

(** The partner a call or a spawned join concerns. *)
Definition event_partners (ev : event) : list Address :=
  match ev with
  | ChannelOpen _ _ partner => [partner]
  | SetTotalChannelDeposit _ _ partner _ => [partner]
  | ChannelBatchClose _ _ partners => partners
  | WaitForSettle _ _ _ _ => []
  | SpawnJoinPartner partner => [partner]
  end.

(** Calls that close or settle channels. *)
Definition closes_channels (ev : event) : bool :=
  match ev with
  | ChannelBatchClose _ _ _ | WaitForSettle _ _ _ _ => true
  | _ => false
  end.

(** The deposits among a list of calls. *)
Definition deposits_of (evs : list event) : list (Address * Z) :=
  omap (fun ev =>
          match ev with
          | SetTotalChannelDeposit _ _ partner total => Some (partner, total)
          | _ => None
          end) evs.

(** ** A node whose transactions all fail

    It sees what a [ToyNode] sees; opening a channel always reports a
    duplicate, a deposit always throws, and nothing it sees ever changes. *)

Record FrozenNode := { frozen_view : ToyNode }.

#[global] Instance frozen_raiden : Raiden FrozenNode := {|
  raiden_address := fun w => toy_address (frozen_view w);
  alarm_sleep_time := fun _ => PyInt 1;
  balance_of := fun w _ _ => toy_balance (frozen_view w);
  get_token_network_registry_address := fun _ _ => "registry";
  get_token_network_token_address := fun _ _ => "token";
  get_channelstate_open := fun w _ _ => toy_channels (frozen_view w);
  get_our_capacity_for_token_network := fun w _ _ =>
    foldr Z.add 0
      (contract_balance ∘ our_state <$> toy_channels (frozen_view w));
  count_token_network_channels := fun w _ _ =>
    toy_network_channels (frozen_view w);
  get_participants_addresses := fun w _ _ =>
    list_to_set (toy_participants (frozen_view w));
  channel_open := fun w _ _ _ => (w, OpenDuplicated);
  set_total_channel_deposit := fun w _ _ _ _ => (w, DepositTransactionThrew);
  channel_batch_close := fun w _ _ _ => w;
  wait_for_settle := fun w _ _ _ _ => w;
|}.

(** [toy_joining] on a node whose transactions all fail. *)
Definition frozen_joining : Machine FrozenNode :=
  {| mgr := mgr toy_joining;
     raiden := {| frozen_view := raiden toy_joining |};
     calls := [];
     tape := [] |}.

(** [toy_joining] after [connect(100, 3, float('nan'))] assigned the
    fields. *)
Definition toy_nan_reserve : Machine ToyNode :=
  toy_machine 100 3 (PyFloat S754_nan) 1000 [toy_channel 1 "a" 0]
    ["a"; "b"; "c"; "d"; "e"; "f"; "me"] 4 [3; 1; 4; 1; 5]%nat.

(** No channel yet with anybody but the bootstrap address, and a reserve
    that is not a number. *)
Definition toy_nan_no_channel : Machine ToyNode :=
  toy_machine 100 2 (PyFloat S754_nan) 1000 [] ["b"; "c"; "me"] 4 [].

(** The partners of the joins spawned among a list of calls. *)
Definition spawned_of (evs : list event) : list Address :=
  omap (fun ev =>
          match ev with
          | SpawnJoinPartner partner => Some partner
          | _ => None
          end) evs.

(** The literals [1.0] and [0.3]. *)
Definition float_1_0 : spec_float := Eval vm_compute in float_literal 1 1.
Definition float_0_3 : spec_float := Eval vm_compute in float_literal 3 10.

(** A manager just built, on a node that reads no channel in its token
    network while its own channel to the bootstrap address, left from an
    earlier run, is still there. *)
Definition toy_unconnected : Machine ToyNode :=
  let node :=
    {| toy_address := "me";
       toy_balance := 1000;
       toy_channels := [toy_channel 1 BOOTSTRAP_ADDR 0];
       toy_participants := ["me"];
       toy_network_channels := 0 |} in
  {| mgr := ConnectionManager_init node "network";
     raiden := node;
     calls := [];
     tape := [] |}.

(** * Properties *)

Ltac unfold_m :=
  unfold mbind, mret, M_bind, M_ret, gets, raise, lift_outcome, set_mgr in *.

Section Shuffle.
Context {W : Type} `{!Raiden W}.

Lemma same_but_tape_refl (s : Machine W) : same_but_tape s s.
Proof. by repeat split. Qed.

Lemma same_but_tape_trans (s1 s2 s3 : Machine W) :
  same_but_tape s1 s2 → same_but_tape s2 s3 → same_but_tape s1 s3.
Proof.
  intros (?&?&?) (?&?&?). repeat split; congruence.
Qed.

Lemma list_swap_perm {A} (x : list A) (i j : nat) : list_swap x i j ≡ₚ x.
Proof.
  unfold list_swap.
  destruct (x !! j) as [xj|] eqn:Hj; [|done].
  destruct (x !! i) as [xi|] eqn:Hi; [|done].
  by apply Permutation_insert_swap.
Qed.

Lemma randbelow_spec (n : nat) (s : Machine W) :
  ∃ j s', randbelow n s = (Return j, s') ∧ same_but_tape s s'.
Proof.
  unfold randbelow. destruct (tape s) as [|r rest].
  - exists 0%nat, s. split; [done | apply same_but_tape_refl].
  - eexists _, _. split; [done|]. by repeat split.
Qed.

Lemma shuffle_from_spec {A} (i : nat) (x : list A) (s : Machine W) :
  ∃ y s', shuffle_from i x s = (Return y, s') ∧ same_but_tape s s' ∧ y ≡ₚ x.
Proof.
  revert x s. induction i as [|i IH]; intros x s.
  - exists x, s. split; [done|]. split; [apply same_but_tape_refl | done].
  - destruct (randbelow_spec (S (S i)) s) as (j & s1 & Hr & Hs1).
    destruct (IH (list_swap x (S i) j) s1) as (y & s2 & Hrun & Hs2 & Hy).
    exists y, s2. split; [|split].
    + cbn [shuffle_from]. unfold_m. by rewrite Hr.
    + by eapply same_but_tape_trans.
    + by rewrite Hy, list_swap_perm.
Qed.

Lemma shuffle_spec {A} (x : list A) (s : Machine W) :
  ∃ y s', shuffle x s = (Return y, s') ∧ same_but_tape s s' ∧ y ≡ₚ x.
Proof. apply shuffle_from_spec. Qed.

Lemma find_new_partners_spec (s : Machine W) :
  ∃ l s', _find_new_partners s = (Return l, s') ∧ same_but_tape s s'
          ∧ l ≡ₚ elements (eligible_partners s).
Proof.
  destruct (shuffle_spec (elements (eligible_partners s)) s)
    as (l & s' & Hrun & Hs' & Hl).
  exists l, s'. split; [|done].
  unfold _find_new_partners. unfold_m. cbn.
  unfold eligible_partners in Hrun. by rewrite Hrun.
Qed.

End Shuffle.

(** ** Exceptions of the arithmetic *)

Lemma finite_or_overflow_raise f e :
  finite_or_overflow f = Raise e → arithmetic_error e = true.
Proof. destruct f; simpl; try done; by intros [= <-]. Qed.

Lemma float_of_int_raise z e :
  float_of_int z = Raise e → arithmetic_error e = true.
Proof. apply finite_or_overflow_raise. Qed.

Lemma py_arith_raise on_int on_float x y e :
  (∀ a b e', on_int a b = Raise e' → arithmetic_error e' = true) →
  (∀ f g e', on_float f g = Raise e' → arithmetic_error e' = true) →
  py_arith on_int on_float x y = Raise e → arithmetic_error e = true.
Proof.
  intros Hint Hfloat. unfold py_arith.
  destruct x as [a|f], y as [b|g].
  - apply Hint.
  - destruct (float_of_int a) as [f|e1] eqn:Ha.
    + destruct (on_float f g) eqn:Hop; [done|].
      intros [= <-]. by eapply Hfloat.
    + intros [= <-]. by eapply float_of_int_raise.
  - destruct (float_of_int b) as [g|e1] eqn:Hb.
    + destruct (on_float f g) eqn:Hop; [done|].
      intros [= <-]. by eapply Hfloat.
    + intros [= <-]. by eapply float_of_int_raise.
  - destruct (on_float f g) eqn:Hop; [done|].
    intros [= <-]. by eapply Hfloat.
Qed.

Lemma py_truediv_raise x y e :
  py_truediv x y = Raise e → arithmetic_error e = true.
Proof.
  apply py_arith_raise.
  - intros a b e'. unfold int_true_divide.
    destruct (b =? 0); [by intros [= <-]|].
    destruct (finite_or_overflow _) eqn:Hf; [done|].
    intros [= <-]. by eapply finite_or_overflow_raise.
  - intros f g e'. unfold float_truediv.
    destruct (is_float_zero g); [by intros [= <-] | done].
Qed.

Lemma py_int_raise x e : py_int x = Raise e → arithmetic_error e = true.
Proof.
  destruct x as [z|f]; [done|]. destruct f; simpl; try done; by intros [= <-].
Qed.

Lemma initial_funding_raise self e :
  _initial_funding_per_partner self = Raise e → arithmetic_error e = true.
Proof.
  unfold _initial_funding_per_partner.
  destruct (negb _); [|done].
  destruct (py_sub _ _) as [rest|e1] eqn:Hsub.
  - destruct (py_mul _ rest) as [assigned|e2] eqn:Hmul.
    + destruct (py_truediv assigned _) as [q|e3] eqn:Hdiv.
      * apply py_int_raise.
      * intros [= <-]. by eapply py_truediv_raise.
    + intros [= <-]. revert Hmul. by apply py_arith_raise.
  - intros [= <-]. revert Hsub. by apply py_arith_raise.
Qed.

Lemma arithmetic_error_not_invalid_amount e :
  arithmetic_error e = true → is_invalid_amount e = false.
Proof. by destruct e. Qed.

Lemma initial_funding_zero_target self :
  initial_channel_target self = 0 →
  _initial_funding_per_partner self = Return 0.
Proof. unfold _initial_funding_per_partner. by intros ->. Qed.

(** ** The channel lists of [_open_channels] *)

Lemma funded_among_ok self channels funding :
  _initial_funding_per_partner self = Return funding →
  funded_among self channels =
    Return (filter (fun channel_state =>
                      funding ≤ contract_balance (our_state channel_state))
                   channels).
Proof.
  intros Hf. induction channels as [|c rest IH]; [done|].
  cbn [funded_among]. rewrite Hf, IH.
  destruct (Z.leb_spec funding (contract_balance (our_state c))).
  - by rewrite filter_cons_True.
  - by rewrite filter_cons_False by lia.
Qed.

Lemma funded_among_raise self channels e :
  funded_among self channels = Raise e →
  _initial_funding_per_partner self = Raise e.
Proof.
  induction channels as [|c rest IH]; [done|].
  cbn [funded_among].
  destruct (_initial_funding_per_partner self) as [v|e1];
    [|by intros [= <-]].
  destruct (funded_among self rest); [done|]. intros [= <-]. by apply IH.
Qed.

Lemma not_in_funded_filter (funding : Z) (all part : list NettingChannelState) :
  part ⊆ all →
  filter (fun channel_state =>
            channel_state ∉
              filter (fun c => funding ≤ contract_balance (our_state c)) all)
         part
  = filter (fun channel_state =>
              contract_balance (our_state channel_state) < funding) part.
Proof.
  induction part as [|c rest IH]; intros Hsub; [done|].
  assert (c ∈ all) by (apply Hsub; left).
  assert (rest ⊆ all) by (intros x Hx; apply Hsub; by right).
  destruct (decide (funding ≤ contract_balance (our_state c))) as [Hle|Hlt].
  - rewrite filter_cons_False, (filter_cons_False _ c) by
      (try lia; rewrite list_elem_of_filter; tauto).
    by apply IH.
  - rewrite filter_cons_True, (filter_cons_True _ c) by
      (try lia; rewrite list_elem_of_filter; tauto).
    f_equal. by apply IH.
Qed.

Lemma py_eq_list_int (l : list pyval) (z : Z) : py_eq (VList l) (VInt z) = false.
Proof. done. Qed.

Lemma py_slice_upto_positive {A} (l : list A) (n : Z) :
  0 ≤ n → py_slice_upto l n = take (Z.to_nat n) l.
Proof.
  intros Hn. unfold py_slice_upto. by destruct (Z.ltb_spec n 0); [lia|].
Qed.

(** ** Joining partners *)

Section Joins.
Context {W : Type} `{!Raiden W}.
Implicit Types (s : Machine W) (partner : Address).

Lemma join_partner_ok partner s funding :
  _initial_funding_per_partner (mgr s) = Return funding →
  ∃ s', _join_partner partner s = (Return tt, s')
        ∧ mgr s' = mgr s ∧ tape s' = tape s
        ∧ calls s' = calls s ++ join_calls (mgr s) funding partner.
Proof.
  intros Hf. unfold _join_partner, try_except_pass, api_channel_open,
    api_set_total_channel_deposit, join_calls.
  unfold_m. cbn. rewrite Hf.
  destruct (channel_open _ _ _ _) as [w1 [|]]; cbn;
    destruct (set_total_channel_deposit _ _ _ _ _) as [w2 [| | |]]; cbn;
    eexists; (split; [done|]); cbn; by rewrite <- app_assoc.
Qed.

Lemma join_partner_any partner s :
  ∃ r s', _join_partner partner s = (r, s')
          ∧ mgr s' = mgr s ∧ tape s' = tape s.
Proof.
  unfold _join_partner, try_except_pass, api_channel_open,
    api_set_total_channel_deposit.
  unfold_m. cbn.
  destruct (channel_open _ _ _ _) as [w1 [|]]; cbn;
    destruct (_initial_funding_per_partner (mgr s)) as [funding|e]; cbn;
    try (destruct (set_total_channel_deposit _ _ _ _ _) as [w2 [| | |]]; cbn);
    try (by eexists _, _); destruct e; by eexists _, _.
Qed.

Lemma spawn_all_spec (partners : list Address) s :
  ∃ s', spawn_all partners s = (Return (_join_partner <$> partners), s')
        ∧ mgr s' = mgr s ∧ raiden s' = raiden s ∧ tape s' = tape s
        ∧ calls s' = calls s ++ (SpawnJoinPartner <$> partners).
Proof.
  revert s. induction partners as [|p rest IH]; intros s.
  - exists s. by rewrite app_nil_r.
  - destruct (IH (perform (SpawnJoinPartner p) (raiden s) s))
      as (s' & Hrun & Hm & Hw & Ht & Hc).
    exists s'. cbn [spawn_all]. unfold_m.
    unfold gevent_spawn_join_partner at 1. rewrite Hrun.
    repeat split; try done. rewrite Hc. cbn. by rewrite <- app_assoc.
Qed.

Lemma joinall_ok (partners : list Address) s funding :
  _initial_funding_per_partner (mgr s) = Return funding →
  ∃ s', gevent_joinall (_join_partner <$> partners) s = (Return tt, s')
        ∧ mgr s' = mgr s ∧ tape s' = tape s
        ∧ calls s' = calls s ++ (partners ≫= join_calls (mgr s) funding).
Proof.
  revert s. induction partners as [|p rest IH]; intros s Hf.
  - exists s. by rewrite app_nil_r.
  - destruct (join_partner_ok p s funding Hf) as (s1 & Hrun & Hm & Ht & Hc).
    destruct (IH s1) as (s2 & Hrun2 & Hm2 & Ht2 & Hc2); [by rewrite Hm|].
    exists s2. cbn [fmap list_fmap gevent_joinall]. unfold_m.
    unfold greenlet_run at 1. rewrite Hrun, Hrun2.
    repeat split; try congruence.
    rewrite Hc2, Hc, Hm. cbn. by rewrite <- app_assoc.
Qed.

Lemma joinall_any (partners : list Address) s :
  ∃ s', gevent_joinall (_join_partner <$> partners) s = (Return tt, s')
        ∧ mgr s' = mgr s ∧ tape s' = tape s.
Proof.
  revert s. induction partners as [|p rest IH]; intros s.
  - by exists s.
  - destruct (join_partner_any p s) as (r & s1 & Hrun & Hm & Ht).
    destruct (IH s1) as (s2 & Hrun2 & Hm2 & Ht2).
    exists s2. cbn [fmap list_fmap gevent_joinall]. unfold_m.
    unfold greenlet_run at 1. rewrite Hrun, Hrun2.
    repeat split; congruence.
Qed.

(** [_open_channels] once the funding amount and the candidates are
    known: the three guards, then the joins. *)
Lemma open_channels_unfold s funding candidates s1 :
  _initial_funding_per_partner (mgr s) = Return funding →
  _find_new_partners s = (Return candidates, s1) →
  _open_channels s =
    (if (initial_channel_target (mgr s)
         <=? Z.of_nat (length (funded_channels funding s)))
        || (bool_decide (nonfunded_channels funding s = [])
            && bool_decide (candidates = []))
     then mret false
     else
       greenlets ←
         spawn_all
           (py_slice_upto
              ((partner_address <$> nonfunded_channels funding s)
               ++ candidates)
              (initial_channel_target (mgr s)
               - Z.of_nat (length (funded_channels funding s))));
       gevent_joinall greenlets;;
       mret true) s1.
Proof.
  intros Hf Hfind. unfold _open_channels. unfold_m. cbn.
  rewrite (funded_among_ok _ _ funding Hf). cbn.
  rewrite Hfind.
  rewrite not_in_funded_filter by done.
  fold (open_channels_of s). fold (funded_channels funding s).
  fold (nonfunded_channels funding s).
  destruct (find_new_partners_spec s) as (l & s' & Hrun & (Hm & _) & _).
  rewrite Hfind in Hrun. injection Hrun as <- <-.
  destruct (_ <=? _); [done|]. cbn.
  by destruct (bool_decide _ && bool_decide _).
Qed.

Lemma open_channels_any s :
  ∃ r s', _open_channels s = (r, s') ∧ mgr s' = mgr s
          ∧ ∀ e, r = Raise e → arithmetic_error e = true.
Proof.
  destruct (find_new_partners_spec s) as (l & s1 & Hfind & (Hm & _) & _).
  destruct (funded_among (mgr s)
              (filter (fun c => partner_address c ≠ BOOTSTRAP_ADDR)
                 (get_channelstate_open (raiden s)
                    (registry_address (mgr s)) (token_address (mgr s)))))
    as [funded|e] eqn:Hfunded.
  - unfold _open_channels. unfold_m. cbn. rewrite Hfunded. cbn.
    rewrite Hfind.
    destruct (_ <=? _); [by eexists _, _|].
    destruct (bool_decide _ && bool_decide _); [by eexists _, _|].
    match goal with
    | |- context [spawn_all ?ps s1] =>
        destruct (spawn_all_spec ps s1) as (s2 & Hspawn & Hm2 & _ & _ & _);
        destruct (joinall_any ps s2) as (s3 & Hjoin & Hm3 & _)
    end.
    rewrite Hspawn, Hjoin. eexists _, _. split; [done|].
    split; [congruence | done].
  - unfold _open_channels. unfold_m. cbn. rewrite Hfunded. cbn.
    eexists _, _. split; [done|]. split; [done|].
    intros e' [= <-]. eapply initial_funding_raise, funded_among_raise.
    exact Hfunded.
Qed.

End Joins.

(** ** The methods *)

Section Methods.
Context {W : Type} `{!Raiden W}.
Implicit Types (s : Machine W) (partner : Address).

Lemma funds_remaining_run s : _funds_remaining s = (Return (funds_remaining_of s), s).
Proof.
  unfold _funds_remaining, funds_remaining_of. unfold_m. cbn.
  by destruct (0 <? funds (mgr s)).
Qed.

Lemma candidates_nil_iff s candidates s1 :
  _find_new_partners s = (Return candidates, s1) →
  candidates = [] ↔ eligible_partners s = ∅.
Proof.
  intros Hfind.
  destruct (find_new_partners_spec s) as (l & s' & Hrun & _ & Hl).
  rewrite Hfind in Hrun. injection Hrun as <- <-.
  rewrite <- (Permutation_nil_r candidates), Hl, Permutation_nil_r.
  rewrite elements_empty_iff. by unfold_leibniz.
Qed.

(** C8: [_find_new_partners] returns the eligible participants, each
    once, in some order: the participants of the network that are not the
    partner of an open channel, not the bootstrap address and not the
    node's own address.  Nothing but the random tape changes. *)
Theorem find_new_partners_eligible s :
  ∃ l s',
    _find_new_partners s = (Return l, s')
    ∧ same_but_tape s s'
    ∧ l ≡ₚ elements (eligible_partners s)
    ∧ NoDup l
    ∧ (∀ a, a ∈ l ↔
         a ∈ (get_participants_addresses (raiden s)
                (registry_address (mgr s)) (token_address (mgr s)))
         ∧ (a ∉ partner_address <$>
                  get_channelstate_open (raiden s)
                    (registry_address (mgr s)) (token_address (mgr s)))
         ∧ a ≠ raiden_address (raiden s)
         ∧ a ≠ BOOTSTRAP_ADDR)
    ∧ (BOOTSTRAP_ADDR ∉ l)
    ∧ (raiden_address (raiden s) ∉ l).
Proof.
  destruct (find_new_partners_spec s) as (l & s' & Hrun & Hs' & Hl).
  assert (Hmem : ∀ a, a ∈ l ↔
         a ∈ (get_participants_addresses (raiden s)
                (registry_address (mgr s)) (token_address (mgr s)))
         ∧ (a ∉ partner_address <$>
                  get_channelstate_open (raiden s)
                    (registry_address (mgr s)) (token_address (mgr s)))
         ∧ a ≠ raiden_address (raiden s)
         ∧ a ≠ BOOTSTRAP_ADDR).
  { intros a. rewrite Hl, elem_of_elements. unfold eligible_partners.
    rewrite elem_of_difference, !elem_of_union, !elem_of_singleton,
      elem_of_list_to_set. tauto. }
  exists l, s'.
  split; [done|]. split; [done|]. split; [done|].
  split; [rewrite Hl; apply NoDup_elements|].
  split; [done|].
  split; rewrite Hmem; tauto.
Qed.

(** C4: when the funded channels already reach the target, or when there
    is neither a nonfunded channel nor an eligible partner,
    [_open_channels] returns [False]; it spawns no join and calls nothing. *)
Theorem open_channels_nothing_to_do s funding :
  _initial_funding_per_partner (mgr s) = Return funding →
  initial_channel_target (mgr s)
    ≤ Z.of_nat (length (funded_channels funding s))
  ∨ (nonfunded_channels funding s = [] ∧ eligible_partners s = ∅) →
  ∃ s', _open_channels s = (Return false, s') ∧ same_but_tape s s'.
Proof.
  intros Hf Hstop.
  destruct (find_new_partners_spec s) as (l & s1 & Hfind & Hs1 & Hl).
  exists s1. split; [|done].
  rewrite (open_channels_unfold s funding l s1 Hf Hfind).
  destruct Hstop as [Hmet | [Hnon Hnone]].
  - destruct (Z.leb_spec (initial_channel_target (mgr s))
                (Z.of_nat (length (funded_channels funding s)))); [done|lia].
  - apply (candidates_nil_iff s l s1 Hfind) in Hnone.
    rewrite !bool_decide_eq_true_2 by done. by rewrite orb_true_r.
Qed.

(** C5: otherwise [_open_channels] spawns one join per partner of the
    list made of the partners of the nonfunded channels followed by the
    candidates, cut to [initial_channel_target - len(funded_channels)]
    entries; each join has run to its end (channel opened, deposit set to
    the funding amount) when [True] is returned.  The calls of the joins
    are listed in the order of the sequential schedule. *)
Theorem open_channels_joins s funding candidates s1 :
  _initial_funding_per_partner (mgr s) = Return funding →
  _find_new_partners s = (Return candidates, s1) →
  Z.of_nat (length (funded_channels funding s))
    < initial_channel_target (mgr s) →
  ¬ (nonfunded_channels funding s = [] ∧ candidates = []) →
  ∃ s',
    _open_channels s = (Return true, s')
    ∧ mgr s' = mgr s
    ∧ calls s' =
        let join_partners :=
          take (Z.to_nat (initial_channel_target (mgr s)
                          - Z.of_nat (length (funded_channels funding s))))
               ((partner_address <$> nonfunded_channels funding s)
                ++ candidates) in
        calls s
        ++ (SpawnJoinPartner <$> join_partners)
        ++ (join_partners ≫= join_calls (mgr s) funding).
Proof.
  intros Hf Hfind Hlt Hsome.
  rewrite (open_channels_unfold s funding candidates s1 Hf Hfind).
  destruct (find_new_partners_spec s) as (l & s' & Hrun & (Hm1 & _ & Hc1) & _).
  rewrite Hfind in Hrun. injection Hrun as <- <-.
  destruct (Z.leb_spec (initial_channel_target (mgr s))
              (Z.of_nat (length (funded_channels funding s)))); [lia|].
  replace (bool_decide (nonfunded_channels funding s = [])
           && bool_decide (candidates = [])) with false.
  2:{ symmetry. apply andb_false_iff.
      destruct (decide (nonfunded_channels funding s = [])) as [Hn|Hn].
      - right. apply bool_decide_eq_false_2. tauto.
      - left. by apply bool_decide_eq_false_2. }
  cbn [orb]. rewrite py_slice_upto_positive by lia.
  set (join_partners := take _ _).
  destruct (spawn_all_spec join_partners s1)
    as (s2 & Hspawn & Hm2 & _ & _ & Hc2).
  destruct (joinall_ok join_partners s2 funding)
    as (s3 & Hjoin & Hm3 & _ & Hc3); [congruence|].
  exists s3. unfold_m. rewrite Hspawn, Hjoin.
  split; [done|]. split; [congruence|].
  rewrite Hc3, Hc2, Hc1, Hm2, Hm1. by rewrite <- app_assoc.
Qed.

(** C6: a list never equals the integer 0, so the first guard of
    [_open_channels] never fires: [False] is returned exactly when the
    target is met, or when there is neither a nonfunded channel nor a
    candidate. *)
Theorem open_channels_zero_guard_dead s funding candidates s1 :
  _initial_funding_per_partner (mgr s) = Return funding →
  _find_new_partners s = (Return candidates, s1) →
  py_eq (VList (VBytes <$> candidates)) (VInt 0) = false
  ∧ ∃ opened s',
      _open_channels s = (Return opened, s')
      ∧ (opened = false ↔
           initial_channel_target (mgr s)
             ≤ Z.of_nat (length (funded_channels funding s))
           ∨ (nonfunded_channels funding s = [] ∧ candidates = [])).
Proof.
  intros Hf Hfind. split; [apply py_eq_list_int|].
  destruct (decide (initial_channel_target (mgr s)
                    ≤ Z.of_nat (length (funded_channels funding s))
                    ∨ (nonfunded_channels funding s = [] ∧ candidates = [])))
    as [Hstop|Hgo].
  - exists false, s1. split; [|tauto].
    rewrite (open_channels_unfold s funding candidates s1 Hf Hfind).
    destruct Hstop as [Hmet | [Hnon Hnone]].
    + destruct (Z.leb_spec (initial_channel_target (mgr s))
                  (Z.of_nat (length (funded_channels funding s))));
        [done|lia].
    + rewrite !bool_decide_eq_true_2 by done. by rewrite orb_true_r.
  - destruct (open_channels_joins s funding candidates s1 Hf Hfind)
      as (s' & Hrun & _); [lia | tauto |].
    exists true, s'. split; [done|]. split; [done | tauto].
Qed.

(** C7: [join_channel] deposits
    [min(partner_deposit, _funds_remaining, _initial_funding_per_partner)];
    it does nothing when that amount is not positive or the manager is
    leaving, and otherwise makes exactly one [set_total_channel_deposit]
    call, with that amount. *)
Theorem join_channel_spec partner partner_deposit s funding :
  _initial_funding_per_partner (mgr s) = Return funding →
  let joining_funds :=
    Z.min (Z.min partner_deposit (funds_remaining_of s)) funding in
  (joining_funds ≤ 0 ∨ initial_channel_target (mgr s) < 1 →
     join_channel partner partner_deposit s = (Return tt, s))
  ∧ (¬ (joining_funds ≤ 0 ∨ initial_channel_target (mgr s) < 1) →
     ∃ r s',
       join_channel partner partner_deposit s = (r, s')
       ∧ mgr s' = mgr s
       ∧ calls s' =
           calls s
           ++ [SetTotalChannelDeposit (registry_address (mgr s))
                 (token_address (mgr s)) partner joining_funds]).
Proof.
  intros Hf joining_funds.
  assert (Hrun : join_channel partner partner_deposit s =
            (if (joining_funds <=? 0) || _leaving_state (mgr s)
             then mret tt
             else try_except_pass
                    (api_set_total_channel_deposit (registry_address (mgr s))
                       (token_address (mgr s)) partner joining_funds)
                    (fun e => match e with
                              | ChannelIncorrectStateError => true
                              | _ => false
                              end)) s).
  { unfold join_channel. unfold_m. cbn. rewrite funds_remaining_run, Hf.
    done. }
  rewrite Hrun. unfold _leaving_state. split.
  - intros Hnoop.
    destruct (Z.leb_spec joining_funds 0); [done|].
    destruct (Z.ltb_spec (initial_channel_target (mgr s)) 1); [done|lia].
  - intros Hgo.
    destruct (Z.leb_spec joining_funds 0); [lia|].
    destruct (Z.ltb_spec (initial_channel_target (mgr s)) 1); [lia|].
    cbn [orb]. unfold try_except_pass, api_set_total_channel_deposit.
    destruct (set_total_channel_deposit _ _ _ _ _) as [w [| | |]];
      by eexists _, _.
Qed.

(** When the funding amount cannot be computed, [join_channel] raises what
    the arithmetic raised and deposits nothing. *)
Lemma join_channel_funding_error partner partner_deposit s e :
  _initial_funding_per_partner (mgr s) = Raise e →
  join_channel partner partner_deposit s = (Raise e, s).
Proof.
  intros Hf. unfold join_channel. unfold_m. cbn.
  by rewrite funds_remaining_run, Hf.
Qed.

(** C9: [leave] sets the target to 0, reads the open channels of the
    given registry once, asks for the batch close of exactly their
    partners, waits for the settlement of exactly their identifiers, and
    returns that list. *)
Theorem leave_closes_snapshot (registry : Address) s :
  let snapshot :=
    get_channelstate_open (raiden s) registry (token_address (mgr s)) in
  let closing :=
    channel_batch_close (raiden s) registry (token_address (mgr s))
      (partner_address <$> snapshot) in
  ∃ s',
    leave registry s = (Return snapshot, s')
    ∧ mgr s' = set_initial_channel_target 0 (mgr s)
    ∧ initial_channel_target (mgr s') = 0
    ∧ calls s' =
        calls s
        ++ [ChannelBatchClose registry (token_address (mgr s))
              (partner_address <$> snapshot);
            WaitForSettle registry (token_address (mgr s))
              (identifier <$> snapshot) (alarm_sleep_time closing)]
    ∧ raiden s' =
        wait_for_settle closing registry (token_address (mgr s))
          (identifier <$> snapshot) (alarm_sleep_time closing).
Proof.
  intros snapshot closing. unfold leave, api_channel_batch_close,
    waiting_wait_for_settle. unfold_m. cbn.
  eexists. split; [reflexivity|].
  cbn. repeat split; try done. by rewrite <- app_assoc.
Qed.

(** C3 (as the code behaves): [leave_async] spawns [self.leave] without
    the registry address it requires, so the handle it returns always
    resolves to a [TypeError] and nothing is closed, while [leave] itself
    returns the list of channels. *)
Theorem leave_async_type_error s :
  leave_async s = (Return (Raise TypeError), s)
  ∧ ∀ registry, ∃ s',
      leave registry s =
        (Return (get_channelstate_open (raiden s) registry
                   (token_address (mgr s))), s')
      ∧ initial_channel_target (mgr s') = 0.
Proof.
  split; [done|]. intros registry.
  destruct (leave_closes_snapshot registry s) as (s' & Hrun & _ & Hz & _).
  by exists s'.
Qed.

(** C2: [connect] raises [InvalidAmount] when the funds are not positive
    or exceed the token balance, and then changes nothing and calls
    nothing; otherwise it does not raise [InvalidAmount] and the three
    fields hold the arguments. *)
Theorem connect_checks_funds (new_funds target : Z) (joinable : pynum) s :
  let token_balance :=
    balance_of (raiden s) (token_address (mgr s))
      (raiden_address (raiden s)) in
  (new_funds ≤ 0 ∨ token_balance < new_funds →
     ∃ why, connect new_funds target joinable s
            = (Raise (InvalidAmount why), s))
  ∧ (¬ (new_funds ≤ 0 ∨ token_balance < new_funds) →
     ∃ r s',
       connect new_funds target joinable s = (r, s')
       ∧ (∀ e, r = Raise e → is_invalid_amount e = false)
       ∧ funds (mgr s') = new_funds
       ∧ initial_channel_target (mgr s') = target
       ∧ joinable_funds_target (mgr s') = joinable).
Proof.
  intros token_balance. split.
  - intros Hbad. unfold connect. unfold_m. cbn. fold token_balance.
    destruct (Z.ltb_spec token_balance new_funds);
      [by exists InsufficientBalance|].
    destruct (Z.leb_spec new_funds 0); [by exists NonPositiveFunds | lia].
  - intros Hok. unfold connect. unfold_m. cbn. fold token_balance.
    destruct (Z.ltb_spec token_balance new_funds); [lia|].
    destruct (Z.leb_spec new_funds 0); [lia|].
    set (s0 := {| mgr := set_strategy new_funds target joinable (mgr s);
                  raiden := raiden s; calls := calls s; tape := tape s |}).
    assert (Hlog : log_open_channels (registry_address (mgr s))
                     (token_address (mgr s)) new_funds s0 = (Return tt, s0)).
    { unfold log_open_channels. unfold_m. cbn.
      by destruct (get_channelstate_open _ _ _). }
    rewrite Hlog. cbn.
    destruct (_ =? 0).
    + unfold api_channel_open.
      destruct (channel_open _ _ _ _) as [w [|]]; eexists _, _;
        (split; [done|]); split; try done; by intros e [= <-].
    + destruct (open_channels_any s0) as (r & s' & Hrun & Hm & Hexn).
      change (registry_address (mgr s)) with (registry_address (mgr s0)).
      change (token_address (mgr s)) with (token_address (mgr s0)).
      rewrite Hrun.
      destruct r as [opened|e]; eexists _, _; (split; [done|]);
        rewrite ?Hm; split; try done.
      intros e' [= <-]. by apply arithmetic_error_not_invalid_amount, Hexn.
Qed.

End Methods.

(** ** Rounding: the integer part of a correctly rounded quotient *)

Section Rounding.

Lemma fexp_eq (x : Z) : fexp prec emax x = Z.max (x - 53) (-1074).
Proof. reflexivity. Qed.

Lemma digits2_pos_bounds (p : positive) :
  2 ^ (Zpos (digits2_pos p) - 1) ≤ Zpos p < 2 ^ Zpos (digits2_pos p).
Proof.
  induction p as [p IH|p IH|]; cbn [digits2_pos].
  - rewrite Pos2Z.inj_succ, (Pos2Z.inj_xI p).
    replace (Z.succ (Zpos (digits2_pos p)) - 1)
      with (Z.succ (Zpos (digits2_pos p) - 1)) by lia.
    rewrite !Z.pow_succ_r by lia.
    revert IH. generalize (2 ^ (Zpos (digits2_pos p) - 1)).
    generalize (2 ^ Zpos (digits2_pos p)). lia.
  - rewrite Pos2Z.inj_succ, (Pos2Z.inj_xO p).
    replace (Z.succ (Zpos (digits2_pos p)) - 1)
      with (Z.succ (Zpos (digits2_pos p) - 1)) by lia.
    rewrite !Z.pow_succ_r by lia.
    revert IH. generalize (2 ^ (Zpos (digits2_pos p) - 1)).
    generalize (2 ^ Zpos (digits2_pos p)). lia.
  - cbn. lia.
Qed.

Lemma Zdigits2_nonneg (m : Z) : 0 ≤ Zdigits2 m.
Proof. destruct m; cbn; lia. Qed.

Lemma Zdigits2_bounds (m : Z) :
  0 < m → 2 ^ (Zdigits2 m - 1) ≤ m < 2 ^ Zdigits2 m.
Proof. destruct m as [|p|p]; try lia. intros _. apply digits2_pos_bounds. Qed.

Lemma Zdigits2_le (m k : Z) : 0 ≤ m → 0 ≤ k → m < 2 ^ k → Zdigits2 m ≤ k.
Proof.
  intros Hm Hk Hlt. destruct (Z.eq_dec m 0) as [->|Hne]; [done|].
  destruct (Zdigits2_bounds m) as [Hlo _]; [lia|].
  destruct (Z.le_gt_cases (Zdigits2 m) k) as [|Hgt]; [done|].
  assert (2 ^ k ≤ 2 ^ (Zdigits2 m - 1)) by (apply Z.pow_le_mono_r; lia).
  lia.
Qed.

(** *** Shifting right *)

Lemma iter_pos_nat {A} (f : A → A) (p : positive) (x : A) :
  SpecFloat.iter_pos f p x = Nat.iter (Pos.to_nat p) f x.
Proof.
  revert x. induction p as [p IH|p IH|]; intros x; cbn [SpecFloat.iter_pos].
  - rewrite !IH, Pos2Nat.inj_xI.
    replace (S (2 * Pos.to_nat p)) with (Pos.to_nat p + S (Pos.to_nat p))%nat
      by lia.
    rewrite Nat.iter_add. f_equal. by rewrite Nat.iter_succ_r.
  - rewrite !IH, Pos2Nat.inj_xO.
    replace (2 * Pos.to_nat p)%nat with (Pos.to_nat p + Pos.to_nat p)%nat
      by lia.
    by rewrite Nat.iter_add.
  - done.
Qed.

Lemma shr_1_spec (mrs : shr_record) :
  0 ≤ shr_m mrs →
  shr_m (shr_1 mrs) = shr_m mrs / 2 ∧ shr_r (shr_1 mrs) = Z.odd (shr_m mrs).
Proof.
  destruct mrs as [m r st]. cbn [shr_m]. intros Hm.
  destruct m as [|[p|p|]|p]; try lia; cbn [shr_1 shr_m shr_r]; split;
    try done.
  - apply (Z.div_unique _ _ _ 1); lia.
  - apply (Z.div_unique _ _ _ 0); lia.
Qed.

Lemma shr_iter_spec (n : nat) (mrs : shr_record) :
  0 ≤ shr_m mrs →
  shr_m (Nat.iter (S n) shr_1 mrs) = shr_m mrs / 2 ^ Z.of_nat (S n)
  ∧ shr_r (Nat.iter (S n) shr_1 mrs) = Z.odd (shr_m mrs / 2 ^ Z.of_nat n).
Proof.
  intros Hm. induction n as [|n [IHm IHr]].
  - change (Nat.iter 1 shr_1 mrs) with (shr_1 mrs).
    destruct (shr_1_spec mrs Hm) as [-> ->].
    change (2 ^ Z.of_nat 1) with 2. change (2 ^ Z.of_nat 0) with 1.
    by rewrite Z.div_1_r.
  - change (Nat.iter (S (S n)) shr_1 mrs)
      with (shr_1 (Nat.iter (S n) shr_1 mrs)).
    destruct (shr_1_spec (Nat.iter (S n) shr_1 mrs)) as [-> ->].
    + rewrite IHm. apply Z.div_pos; [done|]. apply Z.pow_pos_nonneg; lia.
    + rewrite IHm. split; [|done].
      rewrite Z.div_div by (try apply Z.pow_pos_nonneg; lia).
      f_equal. rewrite (Nat2Z.inj_succ (S n)), Z.pow_succ_r by lia. lia.
Qed.

Lemma shr_spec (mrs : shr_record) (e k : Z) :
  0 ≤ shr_m mrs → 0 < k →
  ∃ mrs', shr mrs e k = (mrs', e + k)
          ∧ shr_m mrs' = shr_m mrs / 2 ^ k
          ∧ shr_r mrs' = Z.odd (shr_m mrs / 2 ^ (k - 1)).
Proof.
  intros Hm Hk. destruct k as [|p|p]; try lia.
  cbn [shr]. rewrite iter_pos_nat.
  destruct (Pos2Nat.is_succ p) as [n Hn]. rewrite Hn.
  destruct (shr_iter_spec n mrs Hm) as [Hm' Hr'].
  eexists. split; [done|].
  rewrite Hm', Hr'.
  replace (Z.of_nat (S n)) with (Zpos p) by lia.
  by replace (Z.of_nat n) with (Zpos p - 1) by lia.
Qed.

Lemma round_nearest_even_cases (mrs : shr_record) :
  round_nearest_even (shr_m mrs) (loc_of_shr_record mrs) = shr_m mrs
  ∨ (round_nearest_even (shr_m mrs) (loc_of_shr_record mrs) = shr_m mrs + 1
     ∧ shr_r mrs = true).
Proof.
  destruct mrs as [m [|] [|]]; cbn; try tauto.
  destruct (Z.even m); tauto.
Qed.

Lemma new_location_round_bit (q b r : Z) :
  0 < b → 0 ≤ r < b →
  shr_r (shr_record_of_loc q (new_location b r)) = true → b ≤ 2 * r.
Proof.
  intros Hb Hr. unfold new_location, new_location_even, new_location_odd.
  destruct (Z.even b) eqn:Heven.
  - destruct (Z.eqb_spec r 0); [done|].
    destruct (Z.compare_spec (2 * r) b); cbn; try done; lia.
  - destruct (Z.eqb_spec r 0); [done|].
    destruct (Z.compare_spec (2 * r + 1) b); cbn; try done; lia.
Qed.

End Rounding.

Section RoundedQuotient.

Lemma pow2_pos (k : Z) : 0 ≤ k → 0 < 2 ^ k.
Proof. intros. apply Z.pow_pos_nonneg; lia. Qed.

Lemma pow2_split (a b : Z) : 0 ≤ a → 0 ≤ b → 2 ^ (a + b) = 2 ^ a * 2 ^ b.
Proof. intros. by apply Z.pow_add_r. Qed.

(** One pass of [shr_fexp] on a mantissa [Q] at exponent [e] whose value
    [Q * 2^e] lies in [[n, n+1)]: the [k] low bits are dropped, and the
    bounds are those of the new exponent. *)
Lemma shr_fexp_spec (Q e : Z) (l : location) (n : Z) :
  0 ≤ Q → -1074 ≤ e ≤ 0 → 0 ≤ n < 2 ^ 53 →
  n * 2 ^ (- e) ≤ Q < (n + 1) * 2 ^ (- e) →
  ∃ k mrs,
    shr_fexp prec emax Q e l = (mrs, e + k)
    ∧ 0 ≤ k ≤ - e
    ∧ shr_m mrs = Q / 2 ^ k
    ∧ n * 2 ^ (- e - k) ≤ shr_m mrs < (n + 1) * 2 ^ (- e - k)
    ∧ (k = 0 → mrs = shr_record_of_loc Q l)
    ∧ (0 < k → shr_r mrs = Z.odd (Q / 2 ^ (k - 1)) ∧ 2 ^ (52 + k) ≤ Q).
Proof.
  intros HQ He Hn [Hlo Hhi].
  unfold shr_fexp. rewrite fexp_eq.
  set (k0 := Z.max (Zdigits2 Q + e - 53) (-1074) - e).
  destruct (Z.le_gt_cases k0 0) as [Hk0|Hk0].
  - exists 0, (shr_record_of_loc Q l).
    assert (Hm : shr_m (shr_record_of_loc Q l) = Q)
      by (by destruct l as [|[| |]]).
    split; [|split; [lia|]].
    { rewrite Z.add_0_r. unfold shr. by destruct k0; try lia. }
    rewrite Hm, Z.sub_0_r, Z.pow_0_r, Z.div_1_r.
    repeat split; try done. all: lia.
  - assert (Hk : k0 = Zdigits2 Q - 53) by lia.
    assert (HQpos : 0 < Q).
    { destruct (Z.eq_dec Q 0) as [->|]; [cbn in Hk; lia | lia]. }
    destruct (Zdigits2_bounds Q HQpos) as [Hdlo Hdhi].
    assert (Hkle : k0 ≤ - e).
    { assert (Zdigits2 Q ≤ 53 - e); [|lia].
      apply Zdigits2_le; [lia | lia |].
      replace (53 - e) with (53 + - e) by lia.
      rewrite pow2_split by lia.
      pose proof (pow2_pos (- e) ltac:(lia)). nia. }
    destruct (shr_spec (shr_record_of_loc Q l) e k0) as (mrs & Hshr & Hm & Hr).
    { by destruct l as [|[| |]]; cbn; lia. }
    { done. }
    assert (Hm0 : shr_m (shr_record_of_loc Q l) = Q)
      by (by destruct l as [|[| |]]).
    rewrite Hm0 in Hm, Hr.
    exists k0, mrs. split; [done|]. split; [lia|]. split; [done|].
    assert (Hsplit : 2 ^ (- e) = 2 ^ (- e - k0) * 2 ^ k0).
    { rewrite <- pow2_split by lia. f_equal. lia. }
    pose proof (pow2_pos k0 ltac:(lia)) as Hk0pos.
    pose proof (pow2_pos (- e - k0) ltac:(lia)) as Hrpos.
    split; [|split; [lia|]].
    + rewrite Hm. split.
      * apply Z.div_le_lower_bound; [lia|]. rewrite Hsplit in Hlo. nia.
      * apply Z.div_lt_upper_bound; [lia|]. rewrite Hsplit in Hhi. nia.
    + intros _. split; [done|].
      replace (52 + k0) with (Zdigits2 Q - 1) by lia. done.
Qed.

(** The integer part survives rounding: if [Q * 2^e] lies in [[n, n+1)]
    and rounding up can never reach [n + 1], truncating the rounded float
    gives [n]. *)
Lemma round_aux_trunc (sgn : bool) (Q e : Z) (l : location) (n : Z) :
  0 ≤ Q → -1074 ≤ e ≤ 0 → 0 ≤ n < 2 ^ 53 →
  n * 2 ^ (- e) ≤ Q < (n + 1) * 2 ^ (- e) →
  (∀ k, 0 ≤ k ≤ - e →
     (k = 0 → shr_r (shr_record_of_loc Q l) = true) →
     (0 < k → Z.odd (Q / 2 ^ (k - 1)) = true ∧ 2 ^ (52 + k) ≤ Q) →
     Q / 2 ^ k + 1 < (n + 1) * 2 ^ (- e - k)) →
  float_trunc (binary_round_aux prec emax sgn Q e l)
  = Return (cond_Zopp sgn n).
Proof.
  intros HQ He Hn Hbounds Hsafe.
  destruct (shr_fexp_spec Q e l n HQ He Hn Hbounds)
    as (k & mrs & Hshr & Hk & Hm & Hmb & Hk0 & Hkpos).
  unfold binary_round_aux. rewrite Hshr.
  set (m2 := round_nearest_even (shr_m mrs) (loc_of_shr_record mrs)).
  assert (Hm2 : n * 2 ^ (- (e + k)) ≤ m2 < (n + 1) * 2 ^ (- (e + k))).
  { replace (- (e + k)) with (- e - k) by lia.
    destruct (round_nearest_even_cases mrs) as [Heq | [Heq Hr]];
      fold m2 in Heq; rewrite Heq; [done|].
    split; [lia|]. rewrite Hm. apply Hsafe; [done| |].
    - intros ->. by rewrite <- Hk0.
    - intros Hpos. destruct (Hkpos Hpos) as [Hodd Hbig].
      by rewrite <- Hodd. }
  destruct (shr_fexp_spec m2 (e + k) loc_Exact n)
    as (k3 & mrs3 & Hshr3 & Hk3 & Hm3 & Hm3b & _ & _); try done; try lia.
  rewrite Hshr3.
  set (E3 := - (e + k) - k3) in *.
  pose proof (pow2_pos E3 ltac:(unfold E3; lia)) as HE3.
  destruct (shr_m mrs3) as [|p|p] eqn:Hp.
  - cbn. f_equal. assert (n = 0) by nia. subst n. by destruct sgn.
  - destruct (Z.leb_spec (e + k + k3) (emax - prec)) as [_|Hbad];
      [|unfold emax, prec in Hbad; lia].
    cbn [float_trunc]. do 2 f_equal.
    destruct (e + k + k3) as [|q|q] eqn:He3; try lia.
    + rewrite Z.shiftl_0_r. assert (E3 = 0) by lia.
      replace (2 ^ E3) with 1 in Hm3b by (by rewrite H). lia.
    + rewrite Z.shiftr_div_pow2 by lia.
      assert (E3 = Zpos q) as <- by lia.
      symmetry. apply (Z.div_unique_pos _ _ _ (Zpos p - n * 2 ^ E3)); lia.
  - pose proof (Zlt_neg_0 p). nia.
Qed.

End RoundedQuotient.

Section IntegerQuotient.

(** The mantissa, exponent and location [SFdiv] computes for [a / b]. *)
Lemma div_core_spec (a b : positive) :
  Zpos a < 2 ^ 53 →
  ∃ q r s,
    SFdiv_core_binary prec emax (Zpos a) 0 (Zpos b) 0
    = (q, - s, new_location (Zpos b) r)
    ∧ s = Z.min (53 + Zdigits2 (Zpos b) - Zdigits2 (Zpos a)) 1074
    ∧ 0 < s
    ∧ Zpos a * 2 ^ s = Zpos b * q + r
    ∧ 0 ≤ r < Zpos b.
Proof.
  intros Ha.
  assert (Hd1 : Zdigits2 (Zpos a) ≤ 53) by (apply Zdigits2_le; lia).
  pose proof (Zdigits2_bounds (Zpos b) ltac:(lia)) as Hb.
  assert (Hd2 : 1 ≤ Zdigits2 (Zpos b)) by (cbn; lia).
  set (s := Z.min (53 + Zdigits2 (Zpos b) - Zdigits2 (Zpos a)) 1074).
  assert (Hs : 0 < s) by lia.
  unfold SFdiv_core_binary. rewrite fexp_eq.
  replace (Z.min (Z.max (Zdigits2 (Zpos a) + 0 - (Zdigits2 (Zpos b) + 0) - 53)
                    (-1074)) (0 - 0)) with (- s) by lia.
  replace (0 - 0 - - s) with s by lia.
  destruct s as [|ps|ps] eqn:Hseq; try lia.
  rewrite Z.shiftl_mul_pow2 by lia.
  pose proof (Z_div_mod (Zpos a * 2 ^ Zpos ps) (Zpos b) ltac:(lia)) as Hdiv.
  destruct (Z.div_eucl (Zpos a * 2 ^ Zpos ps) (Zpos b)) as [q r].
  exists q, r, (Zpos ps). repeat split; try done; lia.
Qed.

(** Truncating the correctly rounded quotient of two integers with
    [|a| < 2^53] gives their integer quotient. *)
Lemma div_trunc_pos (sgn : bool) (a b : positive) :
  Zpos a < 2 ^ 53 →
  ∀ q e l,
    SFdiv_core_binary prec emax (Zpos a) 0 (Zpos b) 0 = (q, e, l) →
    float_trunc (binary_round_aux prec emax sgn q e l)
    = Return (cond_Zopp sgn (Zpos a / Zpos b)).
Proof.
  intros Ha q e l Hcore.
  destruct (div_core_spec a b Ha) as (q' & r & s & Hcore' & Hs & Hspos & Hqr & Hr).
  rewrite Hcore in Hcore'. injection Hcore' as -> -> ->.
  set (n := Zpos a / Zpos b).
  assert (Hn : n * Zpos b ≤ Zpos a < (n + 1) * Zpos b).
  { pose proof (Z_div_mod_eq_full (Zpos a) (Zpos b)).
    pose proof (Z.mod_pos_bound (Zpos a) (Zpos b) ltac:(lia)).
    fold n in H. lia. }
  assert (Hn0 : 0 ≤ n) by (apply Z.div_pos; lia).
  assert (Hn53 : n < 2 ^ 53) by nia.
  pose proof (pow2_pos s ltac:(lia)) as HP.
  assert (Hd1 : Zdigits2 (Zpos a) ≤ 53) by (apply Zdigits2_le; lia).
  pose proof (Zdigits2_bounds (Zpos a) ltac:(lia)) as Hda.
  pose proof (Zdigits2_bounds (Zpos b) ltac:(lia)) as Hdb.
  assert (Hq0 : 0 ≤ q') by nia.
  assert (Hqlo : n * 2 ^ s ≤ q') by nia.
  assert (Hqhi : q' < (n + 1) * 2 ^ s) by nia.
  apply round_aux_trunc;
    [exact Hq0 | lia | lia | by rewrite Z.opp_involutive |].
  rewrite Z.opp_involutive. intros k Hk Hzero Hposk.
  destruct (Z.eq_dec k 0) as [->|Hne].
  - (* no bit was dropped: the round bit comes from the remainder *)
    rewrite Z.pow_0_r, Z.div_1_r, Z.sub_0_r.
    pose proof (new_location_round_bit q' (Zpos b) r ltac:(lia) Hr
                  (Hzero eq_refl)) as Hhalf.
    destruct (Z.lt_ge_cases (q' + 1) ((n + 1) * 2 ^ s)) as [|Hreach]; [done|].
    exfalso.
    assert (Hb1 : 2 * 2 ^ s ≤ Zpos b).
    { clear - Hreach Hqr Hn Hhalf HP Hr. nia. }
    destruct (Z.le_gt_cases (53 + Zdigits2 (Zpos b) - Zdigits2 (Zpos a)) 1074)
      as [Hnormal|Hsub].
    + (* normal range: [b < 2^s] *)
      assert (Hbs : 2 ^ Zdigits2 (Zpos b) ≤ 2 ^ s)
        by (apply Z.pow_le_mono_r; lia).
      lia.
    + (* [b] is huge: the quotient has fewer than 53 bits *)
      assert (Hs1074 : s = 1074) by lia. clear Hs Hk. subst s.
      assert (Hab : Zpos a * 2 ^ 1074 < 2 ^ 53 * Zpos b).
      { apply Z.lt_le_trans with (2 ^ Zdigits2 (Zpos a) * 2 ^ 1074).
        { apply Z.mul_lt_mono_pos_r; lia. }
        apply Z.le_trans with (2 ^ 53 * 2 ^ (Zdigits2 (Zpos b) - 1));
          [|apply Z.mul_le_mono_nonneg_l; lia].
        pose proof (Zdigits2_nonneg (Zpos a)).
        rewrite <- !pow2_split by lia.
        apply Z.pow_le_mono_r; lia. }
      assert (Hq53 : q' < 2 ^ 53).
      { apply (Z.mul_lt_mono_pos_l (Zpos b)); lia. }
      assert (Hbig : 2 ^ 53 + 1 < 2 ^ 1074) by (by vm_compute).
      assert (Hone : 2 ^ 1074 ≤ (n + 1) * 2 ^ 1074).
      { clear - Hn0 HP. nia. }
      lia.
  - (* [k] bits were dropped: the round bit is bit [k - 1] of [q'] *)
    destruct Hposk as [Hodd Hbig]; [lia|].
    set (K1 := 2 ^ (k - 1)) in *.
    set (T := 2 ^ (s - k)).
    assert (HK1 : 0 < K1) by (apply pow2_pos; lia).
    assert (HT : 0 < T) by (apply pow2_pos; lia).
    assert (Hk2 : 2 ^ k = 2 * K1).
    { unfold K1. rewrite <- (Z.pow_succ_r 2 (k - 1)) by lia. f_equal. lia. }
    assert (HsKT : 2 ^ s = 2 * K1 * T).
    { rewrite <- Hk2. unfold T. rewrite <- pow2_split by lia. f_equal. lia. }
    assert (H52 : 2 ^ (52 + k) = 2 ^ 53 * K1).
    { unfold K1. rewrite <- pow2_split by lia. f_equal. lia. }
    rewrite Hk2. rewrite H52 in Hbig. rewrite HsKT in Hqr.
    set (u := q' / K1) in *.
    assert (Hu : K1 * u ≤ q').
    { unfold u. apply Z.mul_div_le. lia. }
    assert (Hu2 : q' / (2 * K1) = u / 2).
    { unfold u. rewrite (Z.mul_comm 2 K1), Z.div_div by lia. done. }
    rewrite Hu2.
    assert (Huodd : u = 2 * (u / 2) + 1).
    { rewrite (Zodd_div2 u) at 1; [by rewrite Z.div2_div|].
      by apply Zodd_bool_iff. }
    set (m1 := u / 2) in *.
    destruct (Z.lt_ge_cases (m1 + 1) ((n + 1) * T)) as [|Hreach]; [done|].
    exfalso.
    assert (Hqbig : (n + 1) * (2 * K1 * T) - K1 ≤ q').
    { clear - Hreach Huodd Hu HK1 HT Hn0. nia. }
    assert (Hb1 : 2 * T ≤ Zpos b).
    { clear - Hqbig Hqr Hn Hr HK1 HT Hn0. nia. }
    assert (Hb2 : Zpos b < 2 * T).
    { clear - Hbig Hqr Ha Hr HK1 HT. set (C := 2 ^ 53) in *.
      assert (HC : 0 < C) by (by vm_compute).
      assert (HKT : 0 < 2 * K1 * T) by (repeat apply Z.mul_pos_pos; lia).
      assert (HCK : 0 ≤ C * K1) by (apply Z.mul_nonneg_nonneg; lia).
      assert (H1 : Zpos a * (2 * K1 * T) < C * (2 * K1 * T))
        by (apply Z.mul_lt_mono_pos_r; lia).
      assert (H2 : Zpos b * (C * K1) ≤ Zpos b * q')
        by (apply Z.mul_le_mono_nonneg_l; lia).
      destruct (Z.lt_ge_cases (Zpos b) (2 * T)) as [|Hge]; [done|].
      assert (H3 : 2 * T * (C * K1) ≤ Zpos b * (C * K1))
        by (apply Z.mul_le_mono_nonneg_r; lia).
      clearbody C. lia. }
    lia.
Qed.

End IntegerQuotient.

Section FundingPerPartner.

Lemma float_trunc_finite (f : spec_float) (z : Z) :
  float_trunc f = Return z → finite_or_overflow f = Return f.
Proof. by destruct f. Qed.

Lemma quot_signs (sa sb : bool) (a b : positive) :
  Z.quot (cond_Zopp sa (Zpos a)) (cond_Zopp sb (Zpos b))
  = cond_Zopp (xorb sa sb) (Zpos a / Zpos b).
Proof.
  rewrite <- (Z.quot_div_nonneg (Zpos a) (Zpos b)) by lia.
  destruct sa, sb; cbn [cond_Zopp xorb];
    rewrite ?Z.quot_opp_l, ?Z.quot_opp_r by lia; lia.
Qed.

(** [int(a / b)] on ints, for [|a| < 2^53]: the quotient truncated toward
    zero. *)
Lemma int_true_divide_trunc (a b : Z) :
  b ≠ 0 → Z.abs a < 2 ^ 53 →
  ∃ f, int_true_divide a b = Return f ∧ float_trunc f = Return (Z.quot a b).
Proof.
  intros Hb Ha. unfold int_true_divide.
  destruct (Z.eqb_spec b 0) as [|_]; [done|].
  assert (Hcase : ∀ sa sb pa pb,
            Zpos pa < 2 ^ 53 →
            float_trunc (SFdiv prec emax (S754_finite sa pa 0)
                           (S754_finite sb pb 0))
            = Return (Z.quot (cond_Zopp sa (Zpos pa))
                             (cond_Zopp sb (Zpos pb)))).
  { intros sa sb pa pb Hpa. rewrite quot_signs. cbn [SFdiv].
    destruct (SFdiv_core_binary prec emax (Zpos pa) 0 (Zpos pb) 0)
      as [[q e] l] eqn:Hcore.
    by apply div_trunc_pos. }
  destruct a as [|pa|pa], b as [|pb|pb]; try done; cbn [Z2SF_exact].
  - by eexists.
  - by eexists.
  - pose proof (Hcase false false pa pb ltac:(lia)) as Ht.
    eexists. split; [by eapply float_trunc_finite | exact Ht].
  - pose proof (Hcase false true pa pb ltac:(lia)) as Ht.
    eexists. split; [by eapply float_trunc_finite | exact Ht].
  - pose proof (Hcase true false pa pb ltac:(lia)) as Ht.
    eexists. split; [by eapply float_trunc_finite | exact Ht].
  - pose proof (Hcase true true pa pb ltac:(lia)) as Ht.
    eexists. split; [by eapply float_trunc_finite | exact Ht].
Qed.

Lemma spec_funding_integer (funds target j : Z) :
  0 < target →
  spec_initial_funding_per_partner funds target (inject_Z j)
  = funds * (1 - j) / target.
Proof.
  intros Ht. unfold spec_initial_funding_per_partner.
  destruct (Z.ltb_spec 0 target); [|lia].
  destruct target as [|p|p]; try lia.
  cbn. f_equal. lia.
Qed.

End FundingPerPartner.

(** ** The statements at work *)

(** The spec's example: 100 tokens, 40% held back, three channels. *)
Example funding_100_three_channels :
  _initial_funding_per_partner (mgr toy_joining) = Return 20.
Proof. by vm_compute. Qed.

(** The bootstrap address is the twenty bytes [0x22]. *)
Example bootstrap_address_bytes :
  unhexlify BOOTSTRAP_ADDR_HEX = Some BOOTSTRAP_ADDR
  ∧ String.length BOOTSTRAP_ADDR = 20%nat
  ∧ String.get 0 BOOTSTRAP_ADDR = Some (ascii_of_N 34).
Proof. repeat split; by vm_compute. Qed.

(** Ten tokens, 90% held back, one channel: [1 - 0.9] is just below
    [0.1] in floating point, so the channel is funded with 0 where the
    exact quotient is 1. *)
Example funding_10_high_reserve :
  _initial_funding_per_partner
    (set_strategy 10 1 (PyFloat float_0_9) (mgr toy_joining)) = Return 0
  ∧ spec_initial_funding_per_partner 10 1 (9 # 10) = 1.
Proof. split; by vm_compute. Qed.

(** The first participant of a network opens one channel, to the bootstrap
    address, and looks for no partner. *)
Example connect_bootstraps_empty_network :
  ∃ s', connect 100 3 (PyFloat float_0_4) toy_empty_network = (Return tt, s')
        ∧ calls s' = [ChannelOpen "registry" "token" BOOTSTRAP_ADDR]
        ∧ tape s' = tape toy_empty_network.
Proof. eexists. split; [by vm_compute|]. split; by vm_compute. Qed.

(** In a network with channels and five eligible partners, [connect] ends
    with three channels funded with 20 tokens each. *)
Example connect_joins_three_partners :
  ∃ s', connect 100 3 (PyFloat float_0_4) toy_joining = (Return tt, s')
        ∧ (contract_balance ∘ our_state <$> toy_channels (raiden s'))
          = [20; 20; 20]
        ∧ BOOTSTRAP_ADDR ∉ (partner_address <$> toy_channels (raiden s')).
Proof.
  eexists. split; [by vm_compute|]. split; [by vm_compute|].
  apply (bool_decide_unpack _). by vm_compute.
Qed.

(** [leave] returns the channel it closed; the handle of [leave_async]
    holds a [TypeError]. *)
Example leave_and_leave_async :
  (leave "registry" toy_joining).1 = Return [toy_channel 1 "a" 0]
  ∧ (leave_async toy_joining).1 = Return (Raise TypeError).
Proof. split; by vm_compute. Qed.

(** C1 fails as stated: a negative target gives a negative amount, not 0;
    and one token plus one wei for one channel gives one token, one wei
    short of the exact quotient. *)
Lemma initial_funding_per_partner_counterexample :
  (initial_channel_target negative_target_manager ≤ 0
   ∧ _initial_funding_per_partner negative_target_manager = Return (-20)
   ∧ _initial_funding_per_partner negative_target_manager ≠ Return 0)
  ∧ (0 < initial_channel_target one_token_manager
     ∧ _initial_funding_per_partner one_token_manager = Return (10 ^ 18)
     ∧ spec_initial_funding_per_partner (funds one_token_manager)
         (initial_channel_target one_token_manager) (inject_Z 0)
       = 10 ^ 18 + 1
     ∧ _initial_funding_per_partner one_token_manager
       ≠ Return (spec_initial_funding_per_partner (funds one_token_manager)
                   (initial_channel_target one_token_manager) (inject_Z 0))).
Proof.
  split; [split; [|split] | split; [|split; [|split]]];
    try (by vm_compute).
Qed.

Lemma connect_checks_funds_witness :
  (∃ why, connect 0 3 (PyFloat float_0_4) toy_joining
          = (Raise (InvalidAmount why), toy_joining))
  ∧ (∃ why, connect 2000 3 (PyFloat float_0_4) toy_joining
            = (Raise (InvalidAmount why), toy_joining))
  ∧ (∃ r s',
       connect 50 2 (PyInt 0) toy_joining = (r, s')
       ∧ (∀ e, r = Raise e → is_invalid_amount e = false)
       ∧ funds (mgr s') = 50
       ∧ initial_channel_target (mgr s') = 2
       ∧ joinable_funds_target (mgr s') = PyInt 0).
Proof.
  split; [|split].
  - apply (proj1 (connect_checks_funds 0 3 (PyFloat float_0_4) toy_joining)).
    left. by vm_compute.
  - apply (proj1 (connect_checks_funds 2000 3 (PyFloat float_0_4) toy_joining)).
    right. by vm_compute.
  - apply (proj2 (connect_checks_funds 50 2 (PyInt 0) toy_joining)).
    vm_compute. intros [H|H]; [by apply H | discriminate].
Defined.

Lemma open_channels_nothing_to_do_witness :
  (∃ s', _open_channels toy_target_met = (Return false, s')
         ∧ same_but_tape toy_target_met s')
  ∧ (∃ s', _open_channels
             (toy_machine 100 3 (PyFloat float_0_4) 1000 [] ["me"] 1 [])
           = (Return false, s')
           ∧ same_but_tape
               (toy_machine 100 3 (PyFloat float_0_4) 1000 [] ["me"] 1 []) s').
Proof.
  split.
  - apply (open_channels_nothing_to_do toy_target_met 60).
    + by vm_compute.
    + left. by vm_compute.
  - apply (open_channels_nothing_to_do
             (toy_machine 100 3 (PyFloat float_0_4) 1000 [] ["me"] 1 []) 20).
    + by vm_compute.
    + right. split; by vm_compute.
Defined.

Lemma open_channels_joins_witness :
  ∃ s',
    _open_channels toy_joining = (Return true, s')
    ∧ mgr s' = mgr toy_joining
    ∧ calls s' =
        [SpawnJoinPartner "a"; SpawnJoinPartner "c"; SpawnJoinPartner "f";
         ChannelOpen "registry" "token" "a";
         SetTotalChannelDeposit "registry" "token" "a" 20;
         ChannelOpen "registry" "token" "c";
         SetTotalChannelDeposit "registry" "token" "c" 20;
         ChannelOpen "registry" "token" "f";
         SetTotalChannelDeposit "registry" "token" "f" 20].
Proof.
  exact (open_channels_joins toy_joining 20 ["c"; "f"; "d"; "e"; "b"]
           (toy_machine 100 3 (PyFloat float_0_4) 1000 [toy_channel 1 "a" 0]
              ["a"; "b"; "c"; "d"; "e"; "f"; "me"] 4 [5%nat])
           ltac:(by vm_compute) ltac:(by vm_compute) ltac:(by vm_compute)
           ltac:(vm_compute; intros [H _]; discriminate)).
Defined.

Lemma open_channels_zero_guard_dead_witness :
  py_eq (VList (VBytes <$> [])) (VInt 0) = false
  ∧ ∃ opened s',
      _open_channels toy_small_network = (Return opened, s')
      ∧ (opened = false ↔
           initial_channel_target (mgr toy_small_network)
             ≤ Z.of_nat (length (funded_channels 20 toy_small_network))
           ∨ (nonfunded_channels 20 toy_small_network = []
              ∧ @nil Address = [])).
Proof.
  apply (open_channels_zero_guard_dead toy_small_network 20 [] toy_small_network).
  - by vm_compute.
  - by vm_compute.
Defined.

Lemma join_channel_spec_witness :
  join_channel "a" 0 toy_joining = (Return tt, toy_joining)
  ∧ ∃ r s',
      join_channel "a" 50 toy_joining = (r, s')
      ∧ mgr s' = mgr toy_joining
      ∧ calls s' = [SetTotalChannelDeposit "registry" "token" "a" 20].
Proof.
  split.
  - apply (proj1 (join_channel_spec "a" 0 toy_joining 20 ltac:(by vm_compute))).
    left. by vm_compute.
  - apply (proj2 (join_channel_spec "a" 50 toy_joining 20 ltac:(by vm_compute))).
    vm_compute. intros [H|H]; [by apply H | discriminate].
Defined.

(** * More about the methods *)

(** ** What the joins ask of the API *)

Section Traces.
Context {W : Type} `{!Raiden W}.
Implicit Types (s : Machine W) (partner : Address).

Lemma join_partner_trace partner s :
  ∃ r s' new,
    _join_partner partner s = (r, s')
    ∧ mgr s' = mgr s ∧ tape s' = tape s
    ∧ calls s' = calls s ++ new
    ∧ Forall (fun ev => closes_channels ev = false
                        ∧ event_partners ev = [partner]) new
    ∧ ∀ e, r = Raise e → arithmetic_error e = true.
Proof.
  unfold _join_partner, try_except_pass, api_channel_open,
    api_set_total_channel_deposit.
  unfold_m. cbn.
  destruct (channel_open _ _ _ _) as [w1 [|]]; cbn;
    destruct (_initial_funding_per_partner (mgr s)) as [funding|e] eqn:Hf; cbn;
    try (destruct (set_total_channel_deposit _ _ _ _ _) as [w2 [| | |]]; cbn);
    try (eexists _, _, _; split; [done|]; cbn;
         rewrite <- ?app_assoc; repeat split; try done;
         by repeat constructor).
  all: pose proof (initial_funding_raise _ _ Hf) as He;
    destruct e; try done;
    eexists _, _, _; (split; [done|]); cbn; repeat split; try done;
    try (by repeat constructor); by intros ? [= <-].
Qed.

Lemma joinall_trace (partners : list Address) s :
  ∃ s' new,
    gevent_joinall (_join_partner <$> partners) s = (Return tt, s')
    ∧ mgr s' = mgr s ∧ tape s' = tape s
    ∧ calls s' = calls s ++ new
    ∧ Forall (fun ev => closes_channels ev = false
                        ∧ ∃ p, p ∈ partners ∧ event_partners ev = [p]) new.
Proof.
  revert s. induction partners as [|p rest IH]; intros s.
  - exists s, []. by rewrite app_nil_r.
  - destruct (join_partner_trace p s)
      as (r & s1 & new1 & Hrun & Hm & Ht & Hc & Hall & _).
    destruct (IH s1) as (s2 & new2 & Hrun2 & Hm2 & Ht2 & Hc2 & Hall2).
    exists s2, (new1 ++ new2). cbn [fmap list_fmap gevent_joinall]. unfold_m.
    unfold greenlet_run at 1. rewrite Hrun, Hrun2.
    repeat split; try congruence.
    + by rewrite Hc2, Hc, app_assoc.
    + apply Forall_app. split.
      * eapply Forall_impl; [exact Hall|]. intros ev [? ?]. split; [done|].
        exists p. split; [left | done].
      * eapply Forall_impl; [exact Hall2|]. intros ev [? (q & ? & ?)].
        split; [done|]. exists q. split; [by right | done].
Qed.

Lemma elem_of_py_slice_upto {A} (l : list A) (n : Z) (x : A) :
  x ∈ py_slice_upto l n → x ∈ l.
Proof.
  unfold py_slice_upto. destruct (n <? 0); intros Hx;
    by eapply (subseteq_take _ l).
Qed.

(** Whatever [_open_channels] does, it leaves the manager's fields alone,
    raises nothing but an error of the arithmetic, closes nothing and
    never touches the bootstrap address. *)
Lemma open_channels_trace s :
  ∃ r s' new,
    _open_channels s = (r, s')
    ∧ mgr s' = mgr s
    ∧ (∀ e, r = Raise e → arithmetic_error e = true)
    ∧ calls s' = calls s ++ new
    ∧ Forall (fun ev => closes_channels ev = false
                        ∧ BOOTSTRAP_ADDR ∉ event_partners ev) new.
Proof.
  destruct (find_new_partners_spec s) as (l & s1 & Hfind & (Hm & _ & Hc) & Hl).
  assert (Hboot : BOOTSTRAP_ADDR ∉ l).
  { rewrite Hl, elem_of_elements. unfold eligible_partners.
    rewrite elem_of_difference, !elem_of_union, !elem_of_singleton. tauto. }
  destruct (funded_among (mgr s)
              (filter (fun c => partner_address c ≠ BOOTSTRAP_ADDR)
                 (get_channelstate_open (raiden s)
                    (registry_address (mgr s)) (token_address (mgr s)))))
    as [funded|e] eqn:Hfunded.
  - unfold _open_channels. unfold_m. cbn. rewrite Hfunded. cbn.
    rewrite Hfind.
    destruct (_ <=? _).
    { exists (Return false), s1, []. rewrite app_nil_r. by repeat split. }
    destruct (bool_decide _ && bool_decide _).
    { exists (Return false), s1, []. rewrite app_nil_r. by repeat split. }
    match goal with
    | |- context [spawn_all ?ps s1] =>
        set (join_partners := ps);
        destruct (spawn_all_spec join_partners s1)
          as (s2 & Hspawn & Hm2 & _ & _ & Hc2);
        destruct (joinall_trace join_partners s2)
          as (s3 & new & Hjoin & Hm3 & _ & Hc3 & Hall)
    end.
    assert (Hjp : BOOTSTRAP_ADDR ∉ join_partners).
    { intros Hin. apply elem_of_py_slice_upto, elem_of_app in Hin.
      destruct Hin as [Hin|Hin]; [|done].
      apply list_elem_of_fmap in Hin as (c & Hc' & Hin).
      apply list_elem_of_filter in Hin as [_ Hin].
      apply list_elem_of_filter in Hin as [Hne _]. by apply Hne. }
    rewrite Hspawn, Hjoin.
    exists (Return true), s3, ((SpawnJoinPartner <$> join_partners) ++ new).
    split; [done|]. split; [congruence|]. split; [done|]. split.
    + by rewrite Hc3, Hc2, Hc, app_assoc.
    + apply Forall_app. split.
      * apply Forall_fmap, Forall_forall. intros p Hp. split; [done|].
        cbn. intros Hin%list_elem_of_singleton. by subst.
      * eapply Forall_impl; [exact Hall|]. intros ev [? (p & Hp & ->)].
        split; [done|]. intros Hin%list_elem_of_singleton. by subst.
  - unfold _open_channels. unfold_m. cbn. rewrite Hfunded. cbn.
    exists (Raise e), s, []. rewrite app_nil_r. repeat split; try done.
    intros e' [= <-]. eapply initial_funding_raise, funded_among_raise.
    exact Hfunded.
Qed.

End Traces.

(** ** connect *)

Section Connect.
Context {W : Type} `{!Raiden W}.
Implicit Types (s : Machine W) (partner : Address).

Lemma log_open_channels_run (registry token : Address) (amount : Z) s :
  log_open_channels registry token amount s = (Return tt, s).
Proof.
  unfold log_open_channels. unfold_m. cbn.
  by destruct (get_channelstate_open _ _ _).
Qed.

(** [connect] past its two checks: the fields are assigned, then either the
    bootstrap channel is opened or [_open_channels] is run. *)
Lemma connect_run (new_funds target : Z) (joinable : pynum) s :
  0 < new_funds →
  new_funds ≤ balance_of (raiden s) (token_address (mgr s))
                (raiden_address (raiden s)) →
  connect new_funds target joinable s =
    let s0 := {| mgr := set_strategy new_funds target joinable (mgr s);
                 raiden := raiden s; calls := calls s; tape := tape s |} in
    if count_token_network_channels (raiden s) (registry_address (mgr s))
         (token_address (mgr s)) =? 0
    then api_channel_open (registry_address (mgr s)) (token_address (mgr s))
           BOOTSTRAP_ADDR s0
    else (_ ← _open_channels; mret tt) s0.
Proof.
  intros Hpos Hbal. unfold connect. unfold_m. cbn.
  destruct (Z.ltb_spec (balance_of (raiden s) (token_address (mgr s))
                          (raiden_address (raiden s))) new_funds); [lia|].
  destruct (Z.leb_spec new_funds 0); [lia|].
  rewrite log_open_channels_run. cbn.
  by destruct (_ =? 0).
Qed.

(** X1: in a token network without any channel, a [connect] with valid
    funds makes exactly one call, [channel_open] with the bootstrap
    address; it draws no random number, so no partner was looked for.  A
    [DuplicatedChannelError] of that call is not caught. *)
Theorem connect_first_participant (new_funds target : Z) (joinable : pynum) s :
  0 < new_funds →
  new_funds ≤ balance_of (raiden s) (token_address (mgr s))
                (raiden_address (raiden s)) →
  count_token_network_channels (raiden s) (registry_address (mgr s))
    (token_address (mgr s)) = 0 →
  let opening :=
    channel_open (raiden s) (registry_address (mgr s))
      (token_address (mgr s)) BOOTSTRAP_ADDR in
  ∃ s',
    connect new_funds target joinable s =
      (match opening.2 with
       | OpenOk => Return tt
       | OpenDuplicated => Raise DuplicatedChannelError
       end, s')
    ∧ calls s' =
        calls s ++ [ChannelOpen (registry_address (mgr s))
                      (token_address (mgr s)) BOOTSTRAP_ADDR]
    ∧ tape s' = tape s
    ∧ raiden s' = opening.1
    ∧ mgr s' = set_strategy new_funds target joinable (mgr s).
Proof.
  intros Hpos Hbal Hempty opening.
  rewrite connect_run by done. cbn zeta. rewrite Hempty. cbn.
  unfold api_channel_open. cbn. fold opening.
  destruct opening as [w r]. by eexists.
Qed.

(** X2: [connect] closes nothing, as its docstring says: every call it
    makes is a [channel_open] or a [set_total_channel_deposit] (or the
    spawning of a join).  When the network already has channels none of
    them concerns the bootstrap address. *)
Theorem connect_never_closes (new_funds target : Z) (joinable : pynum) s :
  ∃ r s' new,
    connect new_funds target joinable s = (r, s')
    ∧ calls s' = calls s ++ new
    ∧ Forall (fun ev => closes_channels ev = false) new
    ∧ (count_token_network_channels (raiden s) (registry_address (mgr s))
         (token_address (mgr s)) ≠ 0 →
       Forall (fun ev => BOOTSTRAP_ADDR ∉ event_partners ev) new).
Proof.
  destruct (decide (0 < new_funds
                    ∧ new_funds ≤ balance_of (raiden s) (token_address (mgr s))
                                    (raiden_address (raiden s))))
    as [[Hpos Hbal]|Hbad].
  - rewrite connect_run by done. cbn zeta.
    destruct (Z.eqb_spec (count_token_network_channels (raiden s)
                            (registry_address (mgr s)) (token_address (mgr s)))
                0) as [Hempty|Hsome].
    + unfold api_channel_open. cbn.
      destruct (channel_open _ _ _ _) as [w r].
      eexists _, _, [_]. split; [done|]. split; [done|].
      split; [by repeat constructor | done].
    + match goal with
      | |- context [(_ ← _open_channels; mret tt) ?s0] =>
          destruct (open_channels_trace s0) as (r & s' & new & Hrun & _ & _ & Hc & Hall)
      end.
      unfold_m. rewrite Hrun.
      assert (Hno : Forall (fun ev => closes_channels ev = false) new)
        by (eapply Forall_impl; [exact Hall|]; by intros ev [? ?]).
      assert (Hnb : Forall (fun ev => BOOTSTRAP_ADDR ∉ event_partners ev) new)
        by (eapply Forall_impl; [exact Hall|]; by intros ev [? ?]).
      destruct r as [opened|e]; by eexists _, s', new.
  - exists (connect new_funds target joinable s).1, s, [].
    rewrite app_nil_r. split; [|by repeat split].
    unfold connect. unfold_m. cbn.
    destruct (Z.ltb_spec (balance_of (raiden s) (token_address (mgr s))
                            (raiden_address (raiden s))) new_funds); [done|].
    destruct (Z.leb_spec new_funds 0); [done|]. lia.
Qed.

(** X3: [connect] is not all or nothing.  When the network has channels,
    the node has an open channel other than the bootstrap one, and the
    funding per partner cannot be computed from the new values (a NaN
    reserve, say), [connect] raises the error of the arithmetic with the
    three fields already overwritten; it has called nothing. *)
Theorem connect_raises_after_assigning
    (new_funds target : Z) (joinable : pynum) s e :
  0 < new_funds →
  new_funds ≤ balance_of (raiden s) (token_address (mgr s))
                (raiden_address (raiden s)) →
  count_token_network_channels (raiden s) (registry_address (mgr s))
    (token_address (mgr s)) ≠ 0 →
  open_channels_of s ≠ [] →
  _initial_funding_per_partner
    (set_strategy new_funds target joinable (mgr s)) = Raise e →
  connect new_funds target joinable s =
    (Raise e,
     {| mgr := set_strategy new_funds target joinable (mgr s);
        raiden := raiden s; calls := calls s; tape := tape s |}).
Proof.
  intros Hpos Hbal Hsome Hopen Hf.
  rewrite connect_run by done. cbn zeta.
  destruct (Z.eqb_spec (count_token_network_channels (raiden s)
                          (registry_address (mgr s)) (token_address (mgr s)))
              0); [done|].
  unfold _open_channels. unfold_m. cbn.
  fold (open_channels_of s).
  destruct (open_channels_of s) as [|c rest]; [done|].
  cbn. by rewrite Hf.
Qed.

End Connect.

(** ** Joins and deposits *)

Section Deposits.
Context {W : Type} `{!Raiden W}.
Implicit Types (s : Machine W) (partner : Address).

(** X4: [_join_partner] never fails because of the API.  With the funding
    amount defined it returns normally whether [channel_open] succeeds or
    reports a duplicate, and whether the deposit succeeds, throws, finds
    the channel in the wrong state or lacks funds; the deposit is attempted
    in every case, for exactly the funding amount. *)
Theorem join_partner_absorbs_failures partner s funding :
  _initial_funding_per_partner (mgr s) = Return funding →
  ∃ s',
    _join_partner partner s = (Return tt, s')
    ∧ calls s' = calls s ++ join_calls (mgr s) funding partner
    ∧ raiden s' =
        (set_total_channel_deposit
           (channel_open (raiden s) (registry_address (mgr s))
              (token_address (mgr s)) partner).1
           (registry_address (mgr s)) (token_address (mgr s)) partner
           funding).1.
Proof.
  intros Hf. unfold _join_partner, try_except_pass, api_channel_open,
    api_set_total_channel_deposit, join_calls.
  unfold_m. cbn. rewrite Hf.
  destruct (channel_open _ _ _ _) as [w1 [|]]; cbn;
    destruct (set_total_channel_deposit _ _ _ _ _) as [w2 [| | |]]; cbn;
    eexists; (split; [done|]); cbn; by rewrite <- app_assoc.
Qed.

Lemma join_partner_funding_error partner s e :
  _initial_funding_per_partner (mgr s) = Raise e →
  ∃ s',
    _join_partner partner s = (Raise e, s')
    ∧ mgr s' = mgr s ∧ tape s' = tape s
    ∧ calls s' =
        calls s ++ [ChannelOpen (registry_address (mgr s))
                      (token_address (mgr s)) partner].
Proof.
  intros Hf. pose proof (initial_funding_raise _ _ Hf) as He.
  unfold _join_partner, try_except_pass, api_channel_open.
  unfold_m. cbn. rewrite Hf.
  destruct (channel_open _ _ _ _) as [w1 [|]]; cbn;
    destruct e; try done; by eexists.
Qed.

Lemma joinall_funding_error (partners : list Address) s e :
  _initial_funding_per_partner (mgr s) = Raise e →
  ∃ s',
    gevent_joinall (_join_partner <$> partners) s = (Return tt, s')
    ∧ mgr s' = mgr s ∧ tape s' = tape s
    ∧ calls s' =
        calls s ++ (ChannelOpen (registry_address (mgr s))
                      (token_address (mgr s)) <$> partners).
Proof.
  revert s. induction partners as [|p rest IH]; intros s Hf.
  - exists s. by rewrite app_nil_r.
  - destruct (join_partner_funding_error p s e Hf) as (s1 & Hrun & Hm & Ht & Hc).
    destruct (IH s1) as (s2 & Hrun2 & Hm2 & Ht2 & Hc2); [by rewrite Hm|].
    exists s2. cbn [fmap list_fmap gevent_joinall]. unfold_m.
    unfold greenlet_run at 1. rewrite Hrun, Hrun2.
    repeat split; try congruence.
    rewrite Hc2, Hc, Hm. cbn. by rewrite <- app_assoc.
Qed.

(** X5: channels can be opened and left without a deposit.  When the
    funding per partner cannot be computed and the node has no open channel
    but possibly the bootstrap one, [_open_channels] does not notice: it
    spawns the joins, each opens its channel and then fails on the amount,
    no deposit is attempted, and [True] is returned. *)
Theorem open_channels_opens_without_funding s e candidates s1 :
  _initial_funding_per_partner (mgr s) = Raise e →
  open_channels_of s = [] →
  _find_new_partners s = (Return candidates, s1) →
  0 < initial_channel_target (mgr s) →
  candidates ≠ [] →
  ∃ s',
    _open_channels s = (Return true, s')
    ∧ calls s' =
        (let join_partners :=
           take (Z.to_nat (initial_channel_target (mgr s))) candidates in
         calls s
         ++ (SpawnJoinPartner <$> join_partners)
         ++ (ChannelOpen (registry_address (mgr s)) (token_address (mgr s))
               <$> join_partners))
    ∧ deposits_of (drop (length (calls s)) (calls s')) = [].
Proof.
  intros Hf Hopen Hfind Htarget Hcand.
  destruct (find_new_partners_spec s) as (l & s' & Hrun & (Hm1 & _ & Hc1) & _).
  rewrite Hfind in Hrun. injection Hrun as <- <-.
  unfold _open_channels. unfold_m. cbn.
  fold (open_channels_of s). rewrite Hopen. cbn. rewrite Hfind.
  rewrite (bool_decide_eq_false_2 (candidates = [])) by done. cbn.
  change (Z.of_nat 0) with 0.
  destruct (Z.leb_spec (initial_channel_target (mgr s)) 0); [lia|].
  rewrite Z.sub_0_r, py_slice_upto_positive by lia.
  set (join_partners := take _ _).
  destruct (spawn_all_spec join_partners s1)
    as (s2 & Hspawn & Hm2 & _ & _ & Hc2).
  destruct (joinall_funding_error join_partners s2 e)
    as (s3 & Hjoin & Hm3 & _ & Hc3); [congruence|].
  exists s3. rewrite Hspawn, Hjoin.
  assert (Hcalls : calls s3 =
            calls s ++ (SpawnJoinPartner <$> join_partners)
            ++ (ChannelOpen (registry_address (mgr s)) (token_address (mgr s))
                  <$> join_partners)).
  { rewrite Hc3, Hc2, Hc1, Hm2, Hm1. by rewrite <- app_assoc. }
  split; [done|]. split; [done|].
  rewrite Hcalls, drop_app_length. unfold deposits_of.
  rewrite omap_app.
  assert (Hnone : ∀ (f : Address → event) (ps : list Address),
            (∀ p, match f p with
                  | SetTotalChannelDeposit _ _ _ _ => False
                  | _ => True
                  end) →
            omap (fun ev => match ev with
                            | SetTotalChannelDeposit _ _ partner total =>
                                Some (partner, total)
                            | _ => None
                            end) (f <$> ps) = []).
  { intros f ps Hfp. induction ps as [|p ps IH]; [done|].
    cbn. specialize (Hfp p). by destruct (f p). }
  by rewrite !Hnone.
Qed.

(** X6: unlike [_join_partner], [join_channel] catches only
    [ChannelIncorrectStateError].  When it attempts the deposit, it returns
    normally if the deposit succeeds or finds the channel in the wrong
    state, and lets [TransactionThrew] and [InsufficientFunds] reach its
    caller. *)
Theorem join_channel_lets_failures_through partner partner_deposit s funding :
  _initial_funding_per_partner (mgr s) = Return funding →
  let joining_funds :=
    Z.min (Z.min partner_deposit (funds_remaining_of s)) funding in
  0 < joining_funds →
  1 ≤ initial_channel_target (mgr s) →
  let deposit :=
    set_total_channel_deposit (raiden s) (registry_address (mgr s))
      (token_address (mgr s)) partner joining_funds in
  ∃ s',
    join_channel partner partner_deposit s =
      (match deposit.2 with
       | DepositOk | DepositChannelIncorrectState => Return tt
       | DepositTransactionThrew => Raise TransactionThrew
       | DepositInsufficientFunds => Raise InsufficientFunds
       end, s')
    ∧ raiden s' = deposit.1.
Proof.
  intros Hf joining_funds Hpos Htarget deposit.
  unfold join_channel. unfold_m. cbn. rewrite funds_remaining_run, Hf.
  fold joining_funds. unfold _leaving_state.
  destruct (Z.leb_spec joining_funds 0); [lia|].
  destruct (Z.ltb_spec (initial_channel_target (mgr s)) 1); [lia|].
  cbn [orb]. unfold try_except_pass, api_set_total_channel_deposit.
  fold deposit. destruct deposit as [w [| | |]]; by eexists.
Qed.

(** X7: [join_channel] stays within the budget.  Whatever the state, it
    makes at most one call; if it is a deposit, it is for the given
    partner, and its amount is positive and at most the partner's deposit,
    at most the funds not yet deposited, at most the token balance and at
    most the funding per partner; besides the target is at least 1. *)
Theorem join_channel_deposit_bounds partner partner_deposit s :
  ∃ r s' new,
    join_channel partner partner_deposit s = (r, s')
    ∧ mgr s' = mgr s
    ∧ calls s' = calls s ++ new
    ∧ (length new ≤ 1)%nat
    ∧ ∀ ev, ev ∈ new →
        ∃ amount,
          ev = SetTotalChannelDeposit (registry_address (mgr s))
                 (token_address (mgr s)) partner amount
          ∧ 0 < amount ≤ partner_deposit
          ∧ amount ≤ funds (mgr s)
                     - get_our_capacity_for_token_network (raiden s)
                         (registry_address (mgr s)) (token_address (mgr s))
          ∧ amount ≤ balance_of (raiden s) (token_address (mgr s))
                       (raiden_address (raiden s))
          ∧ (∃ funding,
               _initial_funding_per_partner (mgr s) = Return funding
               ∧ amount ≤ funding)
          ∧ 1 ≤ initial_channel_target (mgr s).
Proof.
  destruct (_initial_funding_per_partner (mgr s)) as [funding|e] eqn:Hf.
  2:{ exists (Raise e), s, []. rewrite app_nil_r.
      rewrite (join_channel_funding_error _ _ _ _ Hf).
      repeat split; try done; [cbn; lia|]. by intros ev Hev%elem_of_nil. }
  set (joining_funds :=
         Z.min (Z.min partner_deposit (funds_remaining_of s)) funding).
  assert (Hrun : join_channel partner partner_deposit s =
            (if (joining_funds <=? 0) || _leaving_state (mgr s)
             then mret tt
             else try_except_pass
                    (api_set_total_channel_deposit (registry_address (mgr s))
                       (token_address (mgr s)) partner joining_funds)
                    (fun e => match e with
                              | ChannelIncorrectStateError => true
                              | _ => false
                              end)) s).
  { unfold join_channel. unfold_m. cbn. by rewrite funds_remaining_run, Hf. }
  rewrite Hrun. unfold _leaving_state.
  destruct (Z.leb_spec joining_funds 0).
  { exists (Return tt), s, []. rewrite app_nil_r.
    repeat split; try done; [cbn; lia|]. by intros ev Hev%elem_of_nil. }
  destruct (Z.ltb_spec (initial_channel_target (mgr s)) 1).
  { exists (Return tt), s, []. rewrite app_nil_r.
    repeat split; try done; [cbn; lia|]. by intros ev Hev%elem_of_nil. }
  cbn [orb]. unfold try_except_pass, api_set_total_channel_deposit.
  assert (Hrem : joining_funds ≤ funds_remaining_of s)
    by (unfold joining_funds; lia).
  unfold funds_remaining_of in Hrem.
  destruct (Z.ltb_spec 0 (funds (mgr s))); [|lia].
  destruct (set_total_channel_deposit _ _ _ _ _) as [w [| | |]];
    eexists _, _, [_]; (split; [done|]); cbn;
    (split; [done|]); (split; [done|]); (split; [lia|]);
    intros ev ->%list_elem_of_singleton; exists joining_funds;
    (split; [done|]); unfold joining_funds in *;
    repeat split; try lia; exists funding; (split; [done | lia]).
Qed.

End Deposits.

(** ** retry_connect *)

Section Retry.
Context {W : Type} `{!Raiden W}.
Implicit Types (s : Machine W) (partner : Address).

(** One turn of the loop of [retry_connect]. *)
Lemma retry_connect_unfold (fuel : nat) s :
  retry_connect fuel s =
    if (0 <? funds_remaining_of s) && negb (_leaving_state (mgr s)) then
      match fuel with
      | O => (Return None, s)
      | S fuel' =>
          (opened ← _open_channels;
           if negb opened then mret (Some tt) else retry_connect fuel') s
      end
    else (Return (Some tt), s).
Proof.
  destruct fuel; cbn [retry_connect]; unfold_m;
    rewrite funds_remaining_run; cbn;
    by destruct (_ && _).
Qed.

(** X8: without funds remaining, or with a target below 1, [retry_connect]
    returns at once: it calls nothing, draws nothing and changes nothing,
    whatever the fuel. *)
Theorem retry_connect_noop (fuel : nat) s :
  funds_remaining_of s ≤ 0 ∨ initial_channel_target (mgr s) < 1 →
  retry_connect fuel s = (Return (Some tt), s).
Proof.
  intros Hstop. rewrite retry_connect_unfold. unfold _leaving_state.
  destruct (Z.ltb_spec 0 (funds_remaining_of s)); [|done].
  destruct (Z.ltb_spec (initial_channel_target (mgr s)) 1); [done|lia].
Qed.

(** X9: no failure of the API escapes [retry_connect], and it closes
    nothing.  For every fuel and state it leaves the manager's fields
    alone, raises nothing but an error of the arithmetic, and every call it
    makes is a [channel_open] or a [set_total_channel_deposit] (or the
    spawning of a join) that does not concern the bootstrap address. *)
Theorem retry_connect_contains_failures (fuel : nat) s :
  ∃ r s' new,
    retry_connect fuel s = (r, s')
    ∧ mgr s' = mgr s
    ∧ (∀ e, r = Raise e → arithmetic_error e = true)
    ∧ calls s' = calls s ++ new
    ∧ Forall (fun ev => closes_channels ev = false
                        ∧ BOOTSTRAP_ADDR ∉ event_partners ev) new.
Proof.
  revert s. induction fuel as [|fuel IH]; intros s;
    rewrite retry_connect_unfold;
    (destruct (_ && _);
     [|exists (Return (Some tt)), s, []; rewrite app_nil_r; by repeat split]).
  - exists (Return None), s, []. rewrite app_nil_r. by repeat split.
  - destruct (open_channels_trace s)
      as (r & s1 & new1 & Hrun & Hm & Hexn & Hc & Hall).
    unfold_m. rewrite Hrun.
    destruct r as [[|]|e]; cbn.
    + destruct (IH s1) as (r2 & s2 & new2 & Hrun2 & Hm2 & Hexn2 & Hc2 & Hall2).
      exists r2, s2, (new1 ++ new2). split; [done|].
      split; [congruence|]. split; [done|]. split.
      * by rewrite Hc2, Hc, app_assoc.
      * by apply Forall_app.
    + by exists (Return (Some tt)), s1, new1.
    + exists (Raise e), s1, new1. repeat split; try done.
      intros e' [= <-]. by apply Hexn.
Qed.

Lemma open_channels_stops s funding :
  _initial_funding_per_partner (mgr s) = Return funding →
  initial_channel_target (mgr s)
    ≤ Z.of_nat (length (funded_channels funding s))
  ∨ (nonfunded_channels funding s = [] ∧ eligible_partners s = ∅) →
  ∃ s', _open_channels s = (Return false, s') ∧ same_but_tape s s'.
Proof.
  intros Hf Hstop.
  destruct (find_new_partners_spec s) as (l & s1 & Hfind & Hs1 & Hl).
  exists s1. split; [|done].
  rewrite (open_channels_unfold s funding l s1 Hf Hfind).
  destruct Hstop as [Hmet | [Hnon Hnone]].
  - destruct (Z.leb_spec (initial_channel_target (mgr s))
                (Z.of_nat (length (funded_channels funding s)))); [done|lia].
  - apply (candidates_nil_iff s l s1 Hfind) in Hnone.
    rewrite !bool_decide_eq_true_2 by done. by rewrite orb_true_r.
Qed.

(** X10: [retry_connect] does not spin when there is nothing to do.  Once
    the funded channels reach the target, or there is neither a nonfunded
    channel nor an eligible partner, one turn of the loop is enough: it
    returns having called nothing; at most the random tape has moved. *)
Theorem retry_connect_stops_when_nothing_to_do (fuel : nat) s funding :
  _initial_funding_per_partner (mgr s) = Return funding →
  initial_channel_target (mgr s)
    ≤ Z.of_nat (length (funded_channels funding s))
  ∨ (nonfunded_channels funding s = [] ∧ eligible_partners s = ∅) →
  ∃ s', retry_connect (S fuel) s = (Return (Some tt), s')
        ∧ same_but_tape s s'.
Proof.
  intros Hf Hstop. rewrite retry_connect_unfold.
  destruct (_ && _); [|exists s; split; [done | apply same_but_tape_refl]].
  destruct (open_channels_stops s funding Hf Hstop) as (s' & Hrun & Hs').
  exists s'. unfold_m. by rewrite Hrun.
Qed.

Lemma join_partner_frozen partner s :
  (∀ w registry token p, (channel_open w registry token p).1 = w) →
  (∀ w registry token p total,
     (set_total_channel_deposit w registry token p total).1 = w) →
  ∃ r s', _join_partner partner s = (r, s')
          ∧ mgr s' = mgr s ∧ raiden s' = raiden s.
Proof.
  intros Hopen Hdeposit.
  unfold _join_partner, try_except_pass, api_channel_open,
    api_set_total_channel_deposit.
  unfold_m. cbn.
  pose proof (Hopen (raiden s) (registry_address (mgr s))
                (token_address (mgr s)) partner) as Ho.
  destruct (channel_open _ _ _ _) as [w1 ro]. cbn in Ho. subst w1.
  destruct (_initial_funding_per_partner (mgr s)) as [funding|e].
  - pose proof (Hdeposit (raiden s) (registry_address (mgr s))
                  (token_address (mgr s)) partner funding) as Hd.
    destruct ro; cbn;
      destruct (set_total_channel_deposit _ _ _ _ _) as [w2 [| | |]];
      cbn in Hd; subst w2; by eexists _, _.
  - destruct ro; cbn; destruct e; by eexists _, _.
Qed.

Lemma joinall_frozen (partners : list Address) s :
  (∀ w registry token p, (channel_open w registry token p).1 = w) →
  (∀ w registry token p total,
     (set_total_channel_deposit w registry token p total).1 = w) →
  ∃ s', gevent_joinall (_join_partner <$> partners) s = (Return tt, s')
        ∧ mgr s' = mgr s ∧ raiden s' = raiden s.
Proof.
  intros Hopen Hdeposit. revert s.
  induction partners as [|p rest IH]; intros s.
  - by exists s.
  - destruct (join_partner_frozen p s Hopen Hdeposit) as (r & s1 & Hrun & Hm & Hw).
    destruct (IH s1) as (s2 & Hrun2 & Hm2 & Hw2).
    exists s2. cbn [fmap list_fmap gevent_joinall]. unfold_m.
    unfold greenlet_run at 1. rewrite Hrun, Hrun2.
    repeat split; congruence.
Qed.

(** X11: [retry_connect] need not terminate.  On a node where opening a
    channel and depositing never change what the node sees (every
    transaction fails, say), if the loop is entered with something left to
    join, it is entered again after every pass: whatever the fuel, the
    loop is still running when the fuel runs out. *)
Theorem retry_connect_can_spin (fuel : nat) s funding :
  (∀ w registry token p, (channel_open w registry token p).1 = w) →
  (∀ w registry token p total,
     (set_total_channel_deposit w registry token p total).1 = w) →
  _initial_funding_per_partner (mgr s) = Return funding →
  0 < funds_remaining_of s →
  Z.of_nat (length (funded_channels funding s))
    < initial_channel_target (mgr s) →
  ¬ (nonfunded_channels funding s = [] ∧ eligible_partners s = ∅) →
  ∃ s', retry_connect fuel s = (Return None, s')
        ∧ mgr s' = mgr s ∧ raiden s' = raiden s.
Proof.
  intros Hopen Hdeposit Hf. revert s Hf.
  induction fuel as [|fuel IH]; intros s Hf Hrem Hlt Hsome;
    rewrite retry_connect_unfold; unfold _leaving_state;
    (destruct (Z.ltb_spec 0 (funds_remaining_of s)); [|lia]);
    (destruct (Z.ltb_spec (initial_channel_target (mgr s)) 1); [lia|]);
    cbn [andb negb].
  - by exists s.
  - destruct (find_new_partners_spec s)
      as (l & s1 & Hfind & (Hm1 & Hw1 & _) & Hl).
    unfold_m.
    rewrite (open_channels_unfold s funding l s1 Hf Hfind).
    destruct (Z.leb_spec (initial_channel_target (mgr s))
                (Z.of_nat (length (funded_channels funding s)))); [lia|].
    replace (bool_decide (nonfunded_channels funding s = [])
             && bool_decide (l = [])) with false.
    2:{ symmetry. apply andb_false_iff.
        destruct (decide (nonfunded_channels funding s = [])) as [Hn|Hn].
        - right. apply bool_decide_eq_false_2.
          rewrite (candidates_nil_iff s l s1 Hfind). tauto.
        - left. by apply bool_decide_eq_false_2. }
    cbn [orb]. unfold_m.
    match goal with
    | |- context [spawn_all ?ps s1] =>
        set (join_partners := ps);
        destruct (spawn_all_spec join_partners s1)
          as (s2 & Hspawn & Hm2 & Hw2 & _ & _);
        destruct (joinall_frozen join_partners s2 Hopen Hdeposit)
          as (s3 & Hjoin & Hm3 & Hw3)
    end.
    rewrite Hspawn, Hjoin. cbn.
    assert (Hm : mgr s3 = mgr s) by congruence.
    assert (Hw : raiden s3 = raiden s) by congruence.
    destruct (IH s3) as (s4 & Hrun & Hm4 & Hw4).
    + by rewrite Hm.
    + unfold funds_remaining_of in *. by rewrite Hm, Hw.
    + unfold funded_channels, open_channels_of in *. by rewrite Hm, Hw.
    + unfold nonfunded_channels, eligible_partners, open_channels_of in *.
      by rewrite Hm, Hw.
    + exists s4. split; [done|]. split; congruence.
Qed.

(** X12: after [leave], and until the next [connect], the manager is inert
    whatever the node has become: [join_channel] and [retry_connect]
    return at once, calling nothing and changing nothing. *)
Theorem leave_then_inert (registry : Address) s r s1 s2 :
  leave registry s = (r, s1) →
  mgr s2 = mgr s1 →
  (∀ partner partner_deposit,
     join_channel partner partner_deposit s2 = (Return tt, s2))
  ∧ (∀ fuel, retry_connect fuel s2 = (Return (Some tt), s2)).
Proof.
  intros Hleave Hmgr.
  assert (Hzero : initial_channel_target (mgr s2) = 0).
  { rewrite Hmgr. unfold leave, api_channel_batch_close,
      waiting_wait_for_settle in Hleave. unfold_m. cbn in Hleave.
    by injection Hleave as <- <-. }
  split.
  - intros partner partner_deposit. unfold join_channel. unfold_m. cbn.
    rewrite funds_remaining_run, (initial_funding_zero_target _ Hzero).
    unfold _leaving_state. rewrite Hzero. by rewrite orb_true_r.
  - intros fuel. rewrite retry_connect_unfold. unfold _leaving_state.
    rewrite Hzero. by rewrite andb_false_r.
Qed.

End Retry.

(** ** Before the manager is connected *)

Section Unconnected.
Context {W : Type} `{!Raiden W}.
Implicit Types (s : Machine W) (partner : Address).

(** [connect] either is refused, changing nothing, or stores its
    arguments; then the stored funds are positive, whatever happens next. *)
Lemma connect_refused_or_stored (new_funds target : Z) (joinable : pynum) s :
  (∃ why, connect new_funds target joinable s = (Raise (InvalidAmount why), s))
  ∨ (∃ r s',
       connect new_funds target joinable s = (r, s')
       ∧ (∀ e, r = Raise e → is_invalid_amount e = false)
       ∧ mgr s' = set_strategy new_funds target joinable (mgr s)
       ∧ 0 < new_funds).
Proof.
  destruct (decide (0 < new_funds
                    ∧ new_funds ≤ balance_of (raiden s) (token_address (mgr s))
                                    (raiden_address (raiden s))))
    as [[Hpos Hbal]|Hbad].
  - right. rewrite connect_run by done. cbn zeta.
    destruct (_ =? 0).
    + unfold api_channel_open.
      destruct (channel_open _ _ _ _) as [w [|]]; eexists _, _;
        (split; [done|]); split; try done; by intros e [= <-].
    + match goal with
      | |- context [(_ ← _open_channels; mret tt) ?s0] =>
          destruct (open_channels_any s0) as (r & s' & Hrun & Hm & Hexn)
      end.
      unfold_m. rewrite Hrun.
      destruct r as [opened|e]; eexists _, _; (split; [done|]);
        rewrite ?Hm; split; try done.
      intros e' [= <-]. by apply arithmetic_error_not_invalid_amount, Hexn.
  - left. unfold connect. unfold_m. cbn.
    destruct (Z.ltb_spec (balance_of (raiden s) (token_address (mgr s))
                            (raiden_address (raiden s))) new_funds);
      [by exists InsufficientBalance|].
    destruct (Z.leb_spec new_funds 0); [by exists NonPositiveFunds | lia].
Qed.

(** C10, as the code has it: a manager as [__init__] leaves it has no
    funds and no target; it is in leaving state, has no funds remaining,
    and [retry_connect] and [join_channel] return at once, changing nothing
    and calling nothing, whatever the node and the chain look like.  That
    lasts until a [connect] gets past its two checks, not until one
    succeeds: a [connect] refused with [InvalidAmount] leaves everything as
    it was and [leave] leaves the fields as they were, while any other
    [connect], whether it returns or raises, has stored its arguments, and
    the funds are positive from then on. *)
Theorem unconnected_manager_is_inert (w0 w : W) (token_network : Address)
    (log : list event) (numbers : list nat) :
  let s := {| mgr := ConnectionManager_init w0 token_network;
              raiden := w; calls := log; tape := numbers |} in
  funds (mgr s) = 0
  ∧ initial_channel_target (mgr s) = 0
  ∧ joinable_funds_target (mgr s) = PyInt 0
  ∧ _leaving_state (mgr s) = true
  ∧ _funds_remaining s = (Return 0, s)
  ∧ (∀ fuel, retry_connect fuel s = (Return (Some tt), s))
  ∧ (∀ partner partner_deposit,
       join_channel partner partner_deposit s = (Return tt, s))
  ∧ (∀ registry, mgr (leave registry s).2 = mgr s)
  ∧ (∀ new_funds target joinable r s',
       connect new_funds target joinable s = (r, s') →
       ((∃ why, r = Raise (InvalidAmount why)) ∧ s' = s)
       ∨ ((∀ e, r = Raise e → is_invalid_amount e = false)
          ∧ mgr s' = set_strategy new_funds target joinable (mgr s)
          ∧ 0 < funds (mgr s'))).
Proof.
  intros s.
  split; [done|]. split; [done|]. split; [done|]. split; [done|].
  split; [done|]. split; [|split; [|split]].
  - intros fuel. by destruct fuel.
  - intros partner partner_deposit.
    unfold join_channel. unfold_m. cbn.
    rewrite funds_remaining_run. by rewrite orb_true_r.
  - done.
  - intros new_funds target joinable r s' Hrun.
    destruct (connect_refused_or_stored new_funds target joinable s)
      as [(why & Hrefused) | (r1 & s1 & Hstored & Hexn & Hm & Hpos)].
    + left. rewrite Hrefused in Hrun. injection Hrun as <- <-. eauto.
    + right. rewrite Hstored in Hrun. injection Hrun as <- <-.
      split; [done|]. split; [done|]. by rewrite Hm.
Qed.

End Unconnected.

(** C10 fails as stated: a [connect] that raises after its checks is not a
    successful one, and yet it has stored its arguments.  Here the manager
    is fresh, its first [connect] raises because the bootstrap channel is
    reported as a duplicate, and from then on [join_channel] asks for a
    deposit of 20 tokens; once the node sees the network of [toy_joining],
    the deposit goes through and [retry_connect] opens and funds
    channels. *)
Lemma unconnected_manager_counterexample :
  mgr toy_unconnected
  = ConnectionManager_init (raiden toy_unconnected) "network"
  ∧ ∃ s1,
      connect 100 3 (PyFloat float_0_4) toy_unconnected
      = (Raise DuplicatedChannelError, s1)
      ∧ mgr s1 = set_strategy 100 3 (PyFloat float_0_4) (mgr toy_unconnected)
      ∧ (∃ s2, join_channel "a" 50 s1 = (Return tt, s2)
               ∧ calls s2 =
                   calls s1 ++ [SetTotalChannelDeposit "registry" "token" "a" 20]
               ∧ s2 ≠ s1)
      ∧ (let later := {| mgr := mgr s1; raiden := raiden toy_joining;
                         calls := calls s1; tape := tape toy_joining |} in
         (∃ s2, join_channel "a" 50 later = (Return tt, s2)
                ∧ calls s2 =
                    calls later
                    ++ [SetTotalChannelDeposit "registry" "token" "a" 20]
                ∧ toy_balance (raiden s2) = toy_balance (raiden later) - 20
                ∧ s2 ≠ later)
         ∧ (∃ s3, retry_connect 2 later = (Return (Some tt), s3)
                  ∧ calls s3 =
                      calls later
                      ++ [SpawnJoinPartner "a"; SpawnJoinPartner "c";
                          SpawnJoinPartner "f";
                          ChannelOpen "registry" "token" "a";
                          SetTotalChannelDeposit "registry" "token" "a" 20;
                          ChannelOpen "registry" "token" "c";
                          SetTotalChannelDeposit "registry" "token" "c" 20;
                          ChannelOpen "registry" "token" "f";
                          SetTotalChannelDeposit "registry" "token" "f" 20]
                  ∧ s3 ≠ later)).
Proof.
  split; [done|]. eexists. split; [by vm_compute|]. split; [by vm_compute|].
  split; [|split].
  - eexists. split; [by vm_compute|]. split; [by vm_compute|].
    intros Heq. apply (f_equal calls) in Heq. by vm_compute in Heq.
  - eexists. split; [by vm_compute|]. split; [by vm_compute|].
    split; [by vm_compute|].
    intros Heq. apply (f_equal calls) in Heq. by vm_compute in Heq.
  - eexists. split; [by vm_compute|]. split; [by vm_compute|].
    intros Heq. apply (f_equal calls) in Heq. by vm_compute in Heq.
Qed.

Lemma unconnected_manager_is_inert_witness :
  retry_connect 5 toy_unconnected = (Return (Some tt), toy_unconnected)
  ∧ join_channel "a" 50 toy_unconnected = (Return tt, toy_unconnected)
  ∧ mgr (leave "registry" toy_unconnected).2 = mgr toy_unconnected
  ∧ (connect 2000 3 (PyFloat float_0_4) toy_unconnected).2 = toy_unconnected
  ∧ 0 < funds (mgr (connect 100 3 (PyFloat float_0_4) toy_unconnected).2).
Proof.
  pose proof (unconnected_manager_is_inert (raiden toy_unconnected)
                (raiden toy_unconnected) "network" [] [])
    as (_ & _ & _ & _ & _ & Hretry & Hjoin & Hleave & Hconnect).
  split; [exact (Hretry 5%nat)|]. split; [exact (Hjoin "a" 50)|].
  split; [exact (Hleave "registry")|]. split.
  - destruct (Hconnect 2000 3 (PyFloat float_0_4) _ _ eq_refl)
      as [[_ Hsame] | [Hexn _]]; [exact Hsame|].
    vm_compute in Hexn. by specialize (Hexn _ eq_refl).
  - destruct (Hconnect 100 3 (PyFloat float_0_4) _ _ eq_refl)
      as [[[why Hwhy] _] | [_ [_ Hpos]]]; [|exact Hpos].
    by vm_compute in Hwhy.
Defined.

(** ** What the funding per partner can raise *)

Section FundingErrors.

Lemma shr_noop (mrs : shr_record) (e k : Z) : k ≤ 0 → shr mrs e k = (mrs, e).
Proof. intros Hk. unfold shr. by destruct k; try lia. Qed.

(** A positive mantissa stays positive when [shr_fexp] drops its low
    bits. *)
Lemma shr_fexp_positive (Q e : Z) (l : location) :
  0 < Q → -1074 ≤ e →
  0 < shr_m (shr_fexp prec emax Q e l).1
  ∧ -1074 ≤ (shr_fexp prec emax Q e l).2.
Proof.
  intros HQ He. unfold shr_fexp. rewrite fexp_eq.
  set (k0 := Z.max (Zdigits2 Q + e - 53) (-1074) - e).
  assert (Hm0 : shr_m (shr_record_of_loc Q l) = Q)
    by (by destruct l as [|[| |]]).
  destruct (Z.le_gt_cases k0 0) as [Hk0|Hk0].
  - rewrite shr_noop by done. cbn. by rewrite Hm0.
  - destruct (shr_spec (shr_record_of_loc Q l) e k0) as (mrs & -> & Hm & _);
      [rewrite Hm0; lia | done |].
    cbn. rewrite Hm, Hm0. split; [|lia].
    destruct (Zdigits2_bounds Q HQ) as [Hlo _].
    assert (H2 : 2 ^ k0 ≤ 2 ^ (Zdigits2 Q - 1))
      by (apply Z.pow_le_mono_r; lia).
    pose proof (pow2_pos k0 ltac:(lia)).
    apply Z.lt_le_trans with 1; [lia|].
    apply Z.div_le_lower_bound; lia.
Qed.

Lemma round_aux_not_zero (sgn : bool) (Q e : Z) (l : location) :
  0 < Q → -1074 ≤ e →
  is_float_zero (binary_round_aux prec emax sgn Q e l) = false.
Proof.
  intros HQ He. unfold binary_round_aux.
  destruct (shr_fexp_positive Q e l HQ He) as [Hm1 He1].
  destruct (shr_fexp prec emax Q e l) as [mrs1 e1]. cbn in Hm1, He1.
  set (m2 := round_nearest_even (shr_m mrs1) (loc_of_shr_record mrs1)).
  assert (Hm2 : 0 < m2).
  { destruct (round_nearest_even_cases mrs1) as [Heq|[Heq _]];
      fold m2 in Heq; lia. }
  destruct (shr_fexp_positive m2 e1 loc_Exact Hm2 He1) as [Hm3 _].
  destruct (shr_fexp prec emax m2 e1 loc_Exact) as [mrs3 e3]. cbn in Hm3.
  destruct (shr_m mrs3); try lia. by destruct (_ <=? _).
Qed.

(** [float(z)] is not zero unless [z] is. *)
Lemma float_of_int_not_zero (z : Z) (f : spec_float) :
  z ≠ 0 → float_of_int z = Return f → is_float_zero f = false.
Proof.
  intros Hz. unfold float_of_int.
  assert (Hnz : is_float_zero (binary_normalize prec emax z 0 false) = false).
  { assert (Hpos : ∀ sgn m, is_float_zero (binary_round prec emax sgn m 0)
                            = false).
    { intros sgn m. unfold binary_round, shl_align. rewrite fexp_eq.
      destruct (Z.max (Zpos (digits2_pos m) + 0 - 53) (-1074) - 0)
        eqn:Hex; apply round_aux_not_zero; lia. }
    destruct z; [done | apply Hpos | apply Hpos]. }
  destruct (binary_normalize prec emax z 0 false); try done.
  all: by intros [= <-].
Qed.

Lemma finite_or_overflow_error f e :
  finite_or_overflow f = Raise e → e = OverflowError.
Proof. destruct f; try done. by intros [= <-]. Qed.

(** X13: the guard on the target does its job.  Whatever the fields hold,
    [_initial_funding_per_partner] never raises [ZeroDivisionError]: it
    either returns, or raises [OverflowError] (an amount or a target too
    large for a float, an infinite result) or [ValueError] (a NaN
    result). *)
Theorem initial_funding_errors (self : ConnectionManager) (e : pyexn) :
  _initial_funding_per_partner self = Raise e →
  e = OverflowError ∨ e = ValueError.
Proof.
  unfold _initial_funding_per_partner.
  destruct (Z.eqb_spec (initial_channel_target self) 0) as [|Hne]; [done|].
  cbn [negb].
  destruct (py_sub _ _) as [rest|e1] eqn:Hsub.
  2:{ intros [= <-]. left. revert Hsub. unfold py_sub, py_arith.
      destruct (joinable_funds_target self) as [j|g]; [done|].
      destruct (float_of_int 1) eqn:H1; [done|].
      intros [= <-]. by eapply finite_or_overflow_error. }
  destruct (py_mul _ rest) as [assigned|e2] eqn:Hmul.
  2:{ intros [= <-]. left. revert Hmul. unfold py_mul, py_arith.
      destruct rest as [j|g]; [done|].
      destruct (float_of_int (funds self)) eqn:H1; [done|].
      intros [= <-]. by eapply finite_or_overflow_error. }
  destruct (py_truediv assigned _) as [q|e3] eqn:Hdiv.
  - destruct q as [z|f]; [done|]. cbn [py_int].
    destruct f; cbn; try done; intros [= <-]; [by left | by right].
  - intros [= <-]. left. revert Hdiv. unfold py_truediv, py_arith.
    destruct assigned as [a|f].
    + unfold int_true_divide.
      destruct (Z.eqb_spec (initial_channel_target self) 0); [done|].
      destruct (finite_or_overflow _) eqn:Hfin; [done|].
      intros [= <-]. by eapply finite_or_overflow_error.
    + destruct (float_of_int (initial_channel_target self)) as [g|e4] eqn:Hg.
      * unfold float_truediv.
        by rewrite (float_of_int_not_zero _ _ Hne Hg).
      * intros [= <-]. by eapply finite_or_overflow_error.
Qed.

End FundingErrors.

(** ** The funding per partner, case by case *)

Section FundingValue.

Lemma float_of_int_one : float_of_int 1 = Return float_1_0.
Proof. by vm_compute. Qed.

(** With an int reserve the numerator is an int, and only the division is
    done in floating point. *)
Lemma initial_funding_int_reserve (self : ConnectionManager) (j : Z) :
  joinable_funds_target self = PyInt j →
  initial_channel_target self ≠ 0 →
  _initial_funding_per_partner self
  = match int_true_divide (funds self * (1 - j))
            (initial_channel_target self) with
    | Return per_partner => float_trunc per_partner
    | Raise e => Raise e
    end.
Proof.
  intros Hj Ht. unfold _initial_funding_per_partner.
  destruct (Z.eqb_spec (initial_channel_target self) 0); [done|].
  rewrite Hj. cbn.
  by destruct (int_true_divide _ _).
Qed.

(** With a float reserve the two ints are converted and the three
    operations are done in floating point. *)
Lemma initial_funding_float_reserve (self : ConnectionManager)
    (g : spec_float) :
  joinable_funds_target self = PyFloat g →
  initial_channel_target self ≠ 0 →
  _initial_funding_per_partner self
  = match float_of_int (funds self),
          float_of_int (initial_channel_target self) with
    | Return f, Return t =>
        float_trunc
          (SFdiv prec emax
             (SFmul prec emax f (SFsub prec emax float_1_0 g)) t)
    | _, _ => Raise OverflowError
    end.
Proof.
  intros Hg Ht. unfold _initial_funding_per_partner.
  destruct (Z.eqb_spec (initial_channel_target self) 0); [done|].
  rewrite Hg. cbn [negb].
  unfold py_sub, py_mul, py_truediv, py_arith.
  rewrite float_of_int_one.
  destruct (float_of_int (funds self)) as [f|e] eqn:Hf.
  2:{ by rewrite (finite_or_overflow_error _ _ Hf). }
  destruct (float_of_int (initial_channel_target self)) as [t|e] eqn:Htf.
  2:{ by rewrite (finite_or_overflow_error _ _ Htf). }
  unfold float_truediv. by rewrite (float_of_int_not_zero _ _ Ht Htf).
Qed.

(** C1, as the code computes it.  The funding per partner is 0 for a zero
    target.  For any other target, negative ones included, it is
    [int(funds * (1 - joinable_funds_target) / initial_channel_target)] in
    Python's arithmetic.  With an int reserve [j] the numerator
    [funds * (1 - j)] is exact, the quotient is rounded once to the nearest
    double and then truncated toward zero; for [|funds * (1 - j)| < 2^53]
    that is the integer quotient truncated toward zero, which is the floor
    of the exact quotient when the target is positive and the numerator is
    not negative.  With a float reserve [g], [funds] and the target become
    doubles ([OverflowError] when one is too large), and the subtraction,
    the product and the quotient are three double operations, each rounded
    on its own; the last double is truncated toward zero. *)
Theorem initial_funding_per_partner_value (self : ConnectionManager) :
  (initial_channel_target self = 0 →
     _initial_funding_per_partner self = Return 0)
  ∧ (∀ j,
       joinable_funds_target self = PyInt j →
       initial_channel_target self ≠ 0 →
       _initial_funding_per_partner self
       = match int_true_divide (funds self * (1 - j))
                 (initial_channel_target self) with
         | Return per_partner => float_trunc per_partner
         | Raise e => Raise e
         end
       ∧ (Z.abs (funds self * (1 - j)) < 2 ^ 53 →
          _initial_funding_per_partner self
          = Return (Z.quot (funds self * (1 - j))
                      (initial_channel_target self))
          ∧ (0 < initial_channel_target self → 0 ≤ funds self * (1 - j) →
             _initial_funding_per_partner self
             = Return (spec_initial_funding_per_partner (funds self)
                         (initial_channel_target self) (inject_Z j)))))
  ∧ (∀ g,
       joinable_funds_target self = PyFloat g →
       initial_channel_target self ≠ 0 →
       _initial_funding_per_partner self
       = match float_of_int (funds self),
               float_of_int (initial_channel_target self) with
         | Return f, Return t =>
             float_trunc
               (SFdiv prec emax
                  (SFmul prec emax f (SFsub prec emax float_1_0 g)) t)
         | _, _ => Raise OverflowError
         end).
Proof.
  split; [apply initial_funding_zero_target|]. split.
  - intros j Hj Ht. split; [by apply initial_funding_int_reserve|].
    intros Hsmall.
    assert (Hrun : _initial_funding_per_partner self
                   = Return (Z.quot (funds self * (1 - j))
                               (initial_channel_target self))).
    { rewrite (initial_funding_int_reserve self j Hj Ht).
      destruct (int_true_divide_trunc (funds self * (1 - j))
                  (initial_channel_target self) Ht Hsmall) as (f & -> & Hf).
      exact Hf. }
    split; [done|]. intros Hpos Hnum.
    rewrite Hrun, spec_funding_integer by done.
    by rewrite Z.quot_div_nonneg by lia.
  - intros g Hg Ht. by apply initial_funding_float_reserve.
Qed.

End FundingValue.

(** The amounts of the spec's example and of a few others: a reserve of
    0.4 on 100 tokens for three channels leaves 20 per channel; a reserve
    of 0.3 on 90 tokens for one channel leaves 62, and a reserve of 0.9 on
    10 tokens leaves 0, where the exact quotients are 63 and 1; a negative
    target gives a negative amount; a NaN reserve, an infinite one and funds
    too large for a double raise. *)
Lemma initial_funding_per_partner_value_witness :
  _initial_funding_per_partner
    (set_initial_channel_target 0 (mgr toy_joining)) = Return 0
  ∧ _initial_funding_per_partner
      (set_strategy 100 3 (PyInt 0) (mgr toy_joining)) = Return 33
  ∧ _initial_funding_per_partner
      (set_strategy 100 (-3) (PyInt 0) (mgr toy_joining)) = Return (-33)
  ∧ _initial_funding_per_partner
      (set_strategy 100 3 (PyFloat float_0_4) (mgr toy_joining)) = Return 20
  ∧ (_initial_funding_per_partner
       (set_strategy 90 1 (PyFloat float_0_3) (mgr toy_joining)) = Return 62
     ∧ spec_initial_funding_per_partner 90 1 (3 # 10) = 63)
  ∧ (_initial_funding_per_partner
       (set_strategy 10 1 (PyFloat float_0_9) (mgr toy_joining)) = Return 0
     ∧ spec_initial_funding_per_partner 10 1 (9 # 10) = 1)
  ∧ _initial_funding_per_partner
      (set_strategy 100 (-3) (PyFloat float_0_4) (mgr toy_joining))
    = Return (-20)
  ∧ _initial_funding_per_partner
      (set_strategy 100 3 (PyFloat S754_nan) (mgr toy_joining))
    = Raise ValueError
  ∧ _initial_funding_per_partner
      (set_strategy 100 3 (PyFloat (S754_infinity false)) (mgr toy_joining))
    = Raise OverflowError
  ∧ _initial_funding_per_partner
      (set_strategy (2 ^ 1024) 3 (PyFloat float_0_4) (mgr toy_joining))
    = Raise OverflowError.
Proof.
  pose proof (fun self => proj1 (initial_funding_per_partner_value self))
    as Hzero.
  pose proof (fun self =>
                proj1 (proj2 (initial_funding_per_partner_value self)))
    as Hint.
  pose proof (fun self =>
                proj2 (proj2 (initial_funding_per_partner_value self)))
    as Hfloat.
  split; [by apply Hzero|].
  split.
  { apply (proj1 (proj2 (Hint (set_strategy 100 3 (PyInt 0) (mgr toy_joining))
                           0 eq_refl ltac:(vm_compute; discriminate))
                    ltac:(vm_compute; reflexivity))). }
  split.
  { apply (proj1 (proj2 (Hint (set_strategy 100 (-3) (PyInt 0)
                                 (mgr toy_joining))
                           0 eq_refl ltac:(vm_compute; discriminate))
                    ltac:(vm_compute; reflexivity))). }
  split.
  { rewrite (Hfloat (set_strategy 100 3 (PyFloat float_0_4) (mgr toy_joining))
               float_0_4 eq_refl ltac:(vm_compute; discriminate)).
    by vm_compute. }
  split.
  { split; [|by vm_compute].
    rewrite (Hfloat (set_strategy 90 1 (PyFloat float_0_3) (mgr toy_joining))
               float_0_3 eq_refl ltac:(vm_compute; discriminate)).
    by vm_compute. }
  split.
  { split; [|by vm_compute].
    rewrite (Hfloat (set_strategy 10 1 (PyFloat float_0_9) (mgr toy_joining))
               float_0_9 eq_refl ltac:(vm_compute; discriminate)).
    by vm_compute. }
  split.
  { rewrite (Hfloat (set_strategy 100 (-3) (PyFloat float_0_4)
                       (mgr toy_joining))
               float_0_4 eq_refl ltac:(vm_compute; discriminate)).
    by vm_compute. }
  split.
  { rewrite (Hfloat (set_strategy 100 3 (PyFloat S754_nan) (mgr toy_joining))
               S754_nan eq_refl ltac:(vm_compute; discriminate)).
    by vm_compute. }
  split.
  { rewrite (Hfloat (set_strategy 100 3 (PyFloat (S754_infinity false))
                       (mgr toy_joining))
               (S754_infinity false) eq_refl ltac:(vm_compute; discriminate)).
    by vm_compute. }
  rewrite (Hfloat (set_strategy (2 ^ 1024) 3 (PyFloat float_0_4)
                     (mgr toy_joining))
             float_0_4 eq_refl ltac:(vm_compute; discriminate)).
  by vm_compute.
Defined.

(** ** constants.py *)

Section NetworkTables.
Context `{Countable K} {V : Type}.

Lemma dict_display_from (items : list (K * V)) (acc : gmap K V) (k : K) (v : V) :
  NoDup items.*1 →
  foldl (fun d item => <[item.1 := item.2]> d) acc items !! k = Some v
  ↔ (k, v) ∈ items ∨ ((k ∉ items.*1) ∧ acc !! k = Some v).
Proof.
  revert acc. induction items as [|[k0 v0] rest IH]; intros acc Hnd.
  - cbn. split; [intros ?; right; split; [apply not_elem_of_nil | done]|].
    intros [Hin|[_ ?]]; [by apply elem_of_nil in Hin | done].
  - apply NoDup_cons in Hnd as [Hk0 Hnd]. cbn [foldl fst snd fmap list_fmap].
    rewrite IH by done. cbn.
    rewrite elem_of_cons, not_elem_of_cons.
    destruct (decide (k = k0)) as [->|Hne].
    + rewrite lookup_insert_eq. split.
      * intros [Hin|[_ [= ->]]]; [|by left; left].
        exfalso. apply Hk0. apply list_elem_of_fmap. by exists (k0, v).
      * intros [[[= ->]|Hin]|[[? _] _]]; try done;
          [by right | ].
        exfalso. apply Hk0. apply list_elem_of_fmap. by exists (k0, v).
    + rewrite lookup_insert_ne by done. split.
      * intros [Hin|[? ?]]; [by left; right | by right].
      * intros [[[= -> ->]|Hin]|[[_ ?] ?]]; [done | by left | by right].
Qed.

Lemma dict_display_lookup (items : list (K * V)) (k : K) (v : V) :
  NoDup items.*1 →
  dict_display items !! k = Some v ↔ (k, v) ∈ items.
Proof.
  intros Hnd. unfold dict_display. rewrite dict_display_from by done.
  rewrite lookup_empty. split; [by intros [?|[_ ?]] | by left].
Qed.

End NetworkTables.

Lemma dict_inverted_display `{Countable V} {K} (items : list (K * V)) :
  dict_inverted items = dict_display (prod_swap <$> items).
Proof.
  unfold dict_inverted, dict_display.
  generalize (∅ : gmap V K). induction items as [|[k v] rest IH]; [done|].
  intros acc. cbn. apply IH.
Qed.

(** X14: a dict whose values are all different is inverted faithfully by
    [{v: k for k, v in d.items()}]: looking a key up and looking its value
    up in the inverted dict are each other's inverse.  This is how
    [NETWORKNAME_TO_ID] is made from [ID_TO_NETWORKNAME]. *)
Theorem dict_inverted_round_trip `{Countable K} `{Countable V}
    (items : list (K * V)) (k : K) (v : V) :
  NoDup items.*1 → NoDup items.*2 →
  dict_display items !! k = Some v ↔ dict_inverted items !! v = Some k.
Proof.
  intros Hkeys Hvalues.
  rewrite dict_inverted_display, !dict_display_lookup; try done.
  - rewrite list_elem_of_fmap. split.
    + intros Hin. by exists (k, v).
    + by intros ([k' v'] & [= -> ->] & Hin).
  - rewrite <- list_fmap_compose.
    by replace (fst ∘ prod_swap) with (snd : K * V → V) by done.
Qed.

(** ** One pass of _open_channels *)

Section OnePass.
Context {W : Type} `{!Raiden W}.
Implicit Types (s : Machine W) (partner : Address).

Lemma pass_spawned (self : ConnectionManager) (funding : Z)
    (partners : list Address) :
  spawned_of ((SpawnJoinPartner <$> partners)
              ++ (partners ≫= join_calls self funding)) = partners.
Proof.
  unfold spawned_of. rewrite omap_app.
  replace (omap _ (partners ≫= join_calls self funding)) with (@nil Address)
    by (induction partners as [|p ps IH]; [done | by cbn]).
  rewrite app_nil_r. induction partners as [|p ps IH]; [done|].
  cbn. by f_equal.
Qed.

Lemma pass_deposits (self : ConnectionManager) (funding : Z)
    (partners : list Address) :
  deposits_of ((SpawnJoinPartner <$> partners)
               ++ (partners ≫= join_calls self funding))
  = (fun p => (p, funding)) <$> partners.
Proof.
  unfold deposits_of. rewrite omap_app.
  replace (omap _ (SpawnJoinPartner <$> partners))
    with (@nil (Address * Z))
    by (induction partners as [|p ps IH]; [done | by cbn]).
  cbn [app]. induction partners as [|p ps IH]; [done|].
  cbn. by f_equal.
Qed.

(** One pass of [_open_channels] with the funding amount defined: the
    partners joined, and what is asked of the API. *)
Lemma open_channels_pass s funding :
  _initial_funding_per_partner (mgr s) = Return funding →
  ∃ opened s' partners,
    _open_channels s = (Return opened, s')
    ∧ calls s' =
        calls s ++ (SpawnJoinPartner <$> partners)
        ++ (partners ≫= join_calls (mgr s) funding)
    ∧ Z.of_nat (length partners)
      ≤ Z.max 0 (initial_channel_target (mgr s)
                 - Z.of_nat (length (funded_channels funding s)))
    ∧ ∃ candidates,
        candidates ≡ₚ elements (eligible_partners s)
        ∧ partners `prefix_of`
            (partner_address <$> nonfunded_channels funding s) ++ candidates.
Proof.
  intros Hf.
  destruct (find_new_partners_spec s) as (l & s1 & Hfind & (Hm1 & _ & Hc1) & Hl).
  rewrite (open_channels_unfold s funding l s1 Hf Hfind).
  destruct (_ || _) eqn:Hstop.
  - exists false, s1, []. split; [done|]. rewrite app_nil_r.
    split; [done|]. split; [cbn; lia|].
    exists l. split; [done | apply prefix_nil].
  - apply orb_false_iff in Hstop as [Hlt%Z.leb_gt _].
    rewrite py_slice_upto_positive by lia.
    set (join_partners := take _ _).
    destruct (spawn_all_spec join_partners s1)
      as (s2 & Hspawn & Hm2 & _ & _ & Hc2).
    destruct (joinall_ok join_partners s2 funding)
      as (s3 & Hjoin & Hm3 & _ & Hc3); [congruence|].
    exists true, s3, join_partners. unfold_m. rewrite Hspawn, Hjoin.
    split; [done|]. split.
    { rewrite Hc3, Hc2, Hc1, Hm2, Hm1. by rewrite <- app_assoc. }
    split.
    { unfold join_partners. rewrite length_take. lia. }
    exists l. split; [done | apply prefix_take].
Qed.

(** X15: one pass of [_open_channels] asks for no more than is missing.
    It attempts at most [initial_channel_target - len(funded_channels)]
    deposits (none when that is negative), one per join it spawned, each
    for exactly the funding per partner. *)
Theorem open_channels_budget s funding :
  _initial_funding_per_partner (mgr s) = Return funding →
  ∃ opened s' new,
    _open_channels s = (Return opened, s')
    ∧ calls s' = calls s ++ new
    ∧ Z.of_nat (length (deposits_of new))
      ≤ Z.max 0 (initial_channel_target (mgr s)
                 - Z.of_nat (length (funded_channels funding s)))
    ∧ deposits_of new = (fun p => (p, funding)) <$> spawned_of new.
Proof.
  intros Hf.
  destruct (open_channels_pass s funding Hf)
    as (opened & s' & partners & Hrun & Hc & Hlen & _).
  exists opened, s', ((SpawnJoinPartner <$> partners)
                      ++ (partners ≫= join_calls (mgr s) funding)).
  split; [done|]. split; [done|].
  rewrite pass_deposits, pass_spawned, length_fmap. by split.
Qed.

(** X16: when the node has at most one open channel per partner, one pass
    of [_open_channels] never spawns two joins for the same partner, so no
    two deposits of the pass go to the same channel. *)
Theorem open_channels_joins_distinct s funding :
  _initial_funding_per_partner (mgr s) = Return funding →
  NoDup (partner_address <$>
           get_channelstate_open (raiden s) (registry_address (mgr s))
             (token_address (mgr s))) →
  ∃ opened s' new,
    _open_channels s = (Return opened, s')
    ∧ calls s' = calls s ++ new
    ∧ NoDup (spawned_of new)
    ∧ NoDup (deposits_of new).*1.
Proof.
  intros Hf Hnd.
  destruct (open_channels_pass s funding Hf)
    as (opened & s' & partners & Hrun & Hc & _ & l & Hl & Hpre).
  exists opened, s', ((SpawnJoinPartner <$> partners)
                      ++ (partners ≫= join_calls (mgr s) funding)).
  split; [done|]. split; [done|].
  rewrite pass_deposits, pass_spawned.
  assert (Hall : NoDup ((partner_address <$> nonfunded_channels funding s)
                        ++ l)).
  { apply NoDup_app. split; [|split].
    - unfold nonfunded_channels, open_channels_of.
      refine (sublist_NoDup _ _ Hnd _).
      apply fmap_sublist.
      etrans; apply sublist_filter.
    - intros a Ha Hin. rewrite Hl, elem_of_elements in Hin.
      unfold eligible_partners in Hin.
      rewrite elem_of_difference, !elem_of_union, elem_of_list_to_set in Hin.
      destruct Hin as [_ Hin]. apply Hin. left. left.
      apply list_elem_of_fmap in Ha as (c & -> & Hc').
      apply list_elem_of_fmap. exists c. split; [done|].
      unfold nonfunded_channels, open_channels_of in Hc'.
      apply list_elem_of_filter in Hc' as [_ Hc'].
      by apply list_elem_of_filter in Hc' as [_ Hc'].
    - rewrite Hl. apply NoDup_elements. }
  assert (Hpartners : NoDup partners).
  { destruct Hpre as [rest Hrest]. rewrite Hrest in Hall.
    by apply NoDup_app in Hall as [? _]. }
  split; [done|].
  rewrite <- list_fmap_compose.
  by replace (fst ∘ (fun p : Address => (p, funding))) with (@id Address)
    by done; rewrite list_fmap_id.
Qed.

End OnePass.

(** ** The further statements at work *)

Lemma connect_first_participant_witness :
  ∃ s',
    connect 100 3 (PyFloat float_0_4) toy_empty_network = (Return tt, s')
    ∧ calls s' = [ChannelOpen "registry" "token" BOOTSTRAP_ADDR]
    ∧ tape s' = []
    ∧ raiden s' = (toy_open (raiden toy_empty_network) BOOTSTRAP_ADDR).1
    ∧ mgr s' = set_strategy 100 3 (PyFloat float_0_4) (mgr toy_empty_network).
Proof.
  exact (connect_first_participant 100 3 (PyFloat float_0_4) toy_empty_network
           ltac:(by vm_compute) ltac:(by vm_compute) ltac:(by vm_compute)).
Defined.

Lemma connect_raises_after_assigning_witness :
  connect 100 3 (PyFloat S754_nan) toy_joining
  = (Raise ValueError, toy_nan_reserve).
Proof.
  exact (connect_raises_after_assigning 100 3 (PyFloat S754_nan) toy_joining
           ValueError
           ltac:(by vm_compute) ltac:(by vm_compute) ltac:(by vm_compute)
           ltac:(by vm_compute) ltac:(by vm_compute)).
Defined.

Lemma join_partner_absorbs_failures_witness :
  ∃ s',
    _join_partner "b" frozen_joining = (Return tt, s')
    ∧ calls s' = [ChannelOpen "registry" "token" "b";
                  SetTotalChannelDeposit "registry" "token" "b" 20]
    ∧ raiden s' = raiden frozen_joining.
Proof.
  exact (join_partner_absorbs_failures "b" frozen_joining 20
           ltac:(by vm_compute)).
Defined.

Lemma open_channels_opens_without_funding_witness :
  ∃ s',
    _open_channels toy_nan_no_channel = (Return true, s')
    ∧ calls s' =
        [SpawnJoinPartner "b"; SpawnJoinPartner "c";
         ChannelOpen "registry" "token" "b";
         ChannelOpen "registry" "token" "c"]
    ∧ deposits_of (drop 0 (calls s')) = [].
Proof.
  exact (open_channels_opens_without_funding toy_nan_no_channel ValueError
           ["b"; "c"] toy_nan_no_channel
           ltac:(by vm_compute) ltac:(by vm_compute) ltac:(by vm_compute)
           ltac:(by vm_compute) ltac:(by vm_compute)).
Defined.

Lemma join_channel_lets_failures_through_witness :
  ∃ s',
    join_channel "a" 50 frozen_joining = (Raise TransactionThrew, s')
    ∧ raiden s' = raiden frozen_joining.
Proof.
  exact (join_channel_lets_failures_through "a" 50 frozen_joining 20
           ltac:(by vm_compute) ltac:(by vm_compute) ltac:(by vm_compute)).
Defined.

Lemma retry_connect_noop_witness :
  retry_connect 7 toy_empty_network = (Return (Some tt), toy_empty_network)
  ∧ retry_connect 7
      (toy_machine 100 0 (PyFloat float_0_4) 1000 [] ["b"; "me"] 4 [])
    = (Return (Some tt),
       toy_machine 100 0 (PyFloat float_0_4) 1000 [] ["b"; "me"] 4 []).
Proof.
  split.
  - apply (retry_connect_noop 7 toy_empty_network). left. by vm_compute.
  - apply (retry_connect_noop 7
             (toy_machine 100 0 (PyFloat float_0_4) 1000 [] ["b"; "me"] 4 [])).
    right. by vm_compute.
Defined.

Lemma retry_connect_stops_when_nothing_to_do_witness :
  ∃ s', retry_connect 1 toy_target_met = (Return (Some tt), s')
        ∧ same_but_tape toy_target_met s'.
Proof.
  apply (retry_connect_stops_when_nothing_to_do 0 toy_target_met 60).
  - by vm_compute.
  - left. by vm_compute.
Defined.

Lemma retry_connect_can_spin_witness :
  ∃ s', retry_connect 50 frozen_joining = (Return None, s')
        ∧ mgr s' = mgr frozen_joining ∧ raiden s' = raiden frozen_joining.
Proof.
  apply (retry_connect_can_spin 50 frozen_joining 20).
  - done.
  - done.
  - by vm_compute.
  - by vm_compute.
  - by vm_compute.
  - vm_compute. intros [H _]. discriminate.
Defined.

Lemma leave_then_inert_witness :
  (∀ partner partner_deposit,
     join_channel partner partner_deposit (leave "registry" toy_joining).2
     = (Return tt, (leave "registry" toy_joining).2))
  ∧ (∀ fuel,
       retry_connect fuel (leave "registry" toy_joining).2
       = (Return (Some tt), (leave "registry" toy_joining).2)).
Proof.
  apply (leave_then_inert "registry" toy_joining
           (leave "registry" toy_joining).1 (leave "registry" toy_joining).2).
  - by vm_compute.
  - done.
Defined.

Lemma initial_funding_errors_witness :
  _initial_funding_per_partner (mgr toy_nan_reserve) = Raise ValueError
  ∧ (ValueError = OverflowError ∨ ValueError = ValueError).
Proof.
  split; [by vm_compute|].
  apply (initial_funding_errors (mgr toy_nan_reserve) ValueError).
  by vm_compute.
Defined.

Lemma dict_inverted_round_trip_witness :
  ID_TO_NETWORKNAME !! 3 = Some ROPSTEN
  ∧ NETWORKNAME_TO_ID !! ROPSTEN = Some 3
  ∧ (ID_TO_NETWORKNAME !! 42 = Some KOVAN
     ↔ NETWORKNAME_TO_ID !! KOVAN = Some 42).
Proof.
  split; [by vm_compute|]. split; [by vm_compute|].
  apply (dict_inverted_round_trip ID_TO_NETWORKNAME_items 42 KOVAN).
  - apply (bool_decide_unpack _). by vm_compute.
  - apply (bool_decide_unpack _). by vm_compute.
Defined.

Lemma open_channels_budget_witness :
  ∃ opened s' new,
    _open_channels toy_joining = (Return opened, s')
    ∧ calls s' = calls toy_joining ++ new
    ∧ Z.of_nat (length (deposits_of new))
      ≤ Z.max 0 (3 - Z.of_nat (length (funded_channels 20 toy_joining)))
    ∧ deposits_of new = (fun p => (p, 20)) <$> spawned_of new.
Proof.
  exact (open_channels_budget toy_joining 20 ltac:(by vm_compute)).
Defined.

Lemma open_channels_joins_distinct_witness :
  ∃ opened s' new,
    _open_channels toy_joining = (Return opened, s')
    ∧ calls s' = calls toy_joining ++ new
    ∧ NoDup (spawned_of new)
    ∧ NoDup (deposits_of new).*1.
Proof.
  apply (open_channels_joins_distinct toy_joining 20).
  - by vm_compute.
  - apply (bool_decide_unpack _). by vm_compute.
Defined.
